(** * Cloudinary URL builder of Pour the PORT (src/lib/cloudinary.ts)

    A shallow embedding of the image-URL helper module and the properties
    its specification states about it.

    Conventions of the embedding.
    - A JavaScript string is a [string] (a sequence of 8-bit characters).
    - A JavaScript number is a [number]: an IEEE-754 binary64 value, with
      its NaN, its two infinities and its two zeros.  Arithmetic and
      comparison are the IEEE operations; printing is the Number::toString
      of ECMAScript (the shortest numeral that reads back as the same
      value, in exponent form from 1e21 and below 1e-6).
    - An options object is kept as the list of its property definitions in
      insertion order; reading a field finds the definition written last.
      A property holding [undefined] reads like an absent one everywhere in
      the module, so the two are identified. *)

From Stdlib Require Import ZArith String List Ascii Bool Lia.
From Stdlib Require Import DecimalString Permutation Floats.
Import ListNotations.

Open Scope list_scope.
Open Scope string_scope.

(* ------------------------------------------------------------------ *)
(** ** JavaScript numbers *)
(* ------------------------------------------------------------------ *)

Module JsNumber.

(** The Number type: IEEE-754 binary64. *)
Definition number : Type := PrimFloat.float.

(** The Number value of an integer numeral: the nearest binary64 value,
    ties to even. *)
Definition ofZ (z : Z) : number :=
  SF2Prim (binary_normalize prec emax z 0 false).

(** Decimal numeral of an integer, with a leading minus sign when negative. *)
Definition Z_to_string (z : Z) : string :=
  NilZero.string_of_int (Z.to_int z).

Fixpoint zeros (n : nat) : string :=
  match n with
  | O => ""
  | S n' => String "0" (zeros n')
  end.

(** Below, a positive real is a fraction [num / den] of positive integers
    and a decimal is [s * 10^p]. *)

(** Compares [num / den] with [10^p]. *)
Definition cmp_pow10 (num den p : Z) : comparison :=
  if (0 <=? p)%Z then (num ?= den * 10 ^ p)%Z
  else (num * 10 ^ (- p) ?= den)%Z.

Fixpoint adjust_up (fuel : nat) (num den n : Z) : Z :=
  match fuel with
  | O => n
  | S fuel' =>
      match cmp_pow10 num den n with
      | Lt => n
      | _ => adjust_up fuel' num den (n + 1)
      end
  end.

(** The integer [n] with [10^(n-1) <= num / den < 10^n].  The search starts
    from an estimate taken from the binary logarithm, which is at most
    four below [n]. *)
Definition decimal_exponent (num den : Z) : Z :=
  let b := (Z.log2 num - Z.log2 den)%Z in
  adjust_up 6 num den ((b - 1) * 30103 / 100000 - 1)%Z.

(** The integer part of [(num / den) / 10^p]. *)
Definition scaled_floor (num den p : Z) : Z :=
  if (0 <=? p)%Z then (num / (den * 10 ^ p))%Z
  else ((num * 10 ^ (- p)) / den)%Z.

(** Compares [s * 10^p] with [num / den]. *)
Definition cmp_decimal (s p num den : Z) : comparison :=
  if (0 <=? p)%Z then (s * 10 ^ p * den ?= num)%Z
  else (s * den ?= num * 10 ^ (- p))%Z.

(** [s * 10^p] lies between [lo / den] and [hi / den]; the end points count
    when [inclusive]. *)
Definition within (inclusive : bool) (lo hi den s p : Z) : bool :=
  match cmp_decimal s p lo den with
  | Gt => true
  | Eq => inclusive
  | Lt => false
  end
  && match cmp_decimal s p hi den with
     | Lt => true
     | Eq => inclusive
     | Gt => false
     end.

(** The distance of [s * 10^p] from [x / den], up to a positive factor that
    depends on [p] and [den] only. *)
Definition distance (s p x den : Z) : Z :=
  if (0 <=? p)%Z then Z.abs (s * 10 ^ p * den - x)
  else Z.abs (s * den - x * 10 ^ (- p)).

(** Step 5 of Number::toString: the integers [s] and [n] such that
    [s * 10^(n-k)] reads back as the value, with [k], the number of digits
    of [s], as small as possible.  [lo / den] and [hi / den] bound the reals
    that round to the value [x / den]; for each [k] the two [k]-digit
    decimals next to the value are tried, and of two that fit the closer
    one is taken (the even one on a tie). *)
Fixpoint shortest (fuel : nat) (inclusive : bool) (lo x hi den n k : Z)
  : Z * Z :=
  let p := (n - k)%Z in
  let s1 := scaled_floor x den p in
  let s2 := (s1 + 1)%Z in
  let ok1 := within inclusive lo hi den s1 p in
  let ok2 := within inclusive lo hi den s2 p in
  let pick :=
    if ok1 && ok2 then
      match (distance s1 p x den ?= distance s2 p x den)%Z with
      | Lt => Some s1
      | Gt => Some s2
      | Eq => Some (if Z.even s1 then s1 else s2)
      end
    else if ok1 then Some s1
    else if ok2 then Some s2
    else None in
  match pick with
  | Some s => if (s =? 10 ^ k)%Z then (1, n + 1)%Z else (s, n)
  | None =>
      match fuel with
      | O => (s1, n)
      | S fuel' => shortest fuel' inclusive lo x hi den n (k + 1)
      end
  end.

(** The digits of the positive value [m * 2^e], where [m] and [e] are the
    mantissa and exponent of a binary64 value.  The reals that round to it
    reach half a unit in the last place upwards, and as far downwards
    unless the value is the smallest of its binade, where the gap below is
    half as wide; the end points round to it when [m] is even.  Seventeen
    digits always suffice. *)
Definition digits_of (m : positive) (e : Z) : Z * Z :=
  let up := (2 ^ Z.max e 0)%Z in
  let den := (4 * 2 ^ Z.max (- e) 0)%Z in
  let x := (4 * Z.pos m * up)%Z in
  let below :=
    if (Z.pos m =? 2 ^ 52)%Z && (-1074 <? e)%Z then up else (2 * up)%Z in
  let lo := (x - below)%Z in
  let hi := (x + 2 * up)%Z in
  shortest 17 (Z.even (Z.pos m)) lo x hi den (decimal_exponent x den) 1.

(** The exponent part [e+<n-1>] or [e-<1-n>]. *)
Definition exponent_part (n : Z) : string :=
  let e := (n - 1)%Z in
  "e" ++ (if (e <? 0)%Z then "-" else "+") ++ Z_to_string (Z.abs e).

(** Steps 6 to 10 of Number::toString. *)
Definition format_digits (s n : Z) : string :=
  let ds := Z_to_string s in
  let k := Z.of_nat (String.length ds) in
  if (k <=? n)%Z && (n <=? 21)%Z then
    ds ++ zeros (Z.to_nat (n - k))
  else if (0 <? n)%Z && (n <=? 21)%Z then
    substring 0 (Z.to_nat n) ds ++ "."
      ++ substring (Z.to_nat n) (Z.to_nat (k - n)) ds
  else if (-6 <? n)%Z && (n <=? 0)%Z then
    "0." ++ zeros (Z.to_nat (- n)) ++ ds
  else if (k =? 1)%Z then
    ds ++ exponent_part n
  else
    substring 0 1 ds ++ "."
      ++ substring 1 (Z.to_nat (k - 1)) ds ++ exponent_part n.

(** Number::toString, radix 10: what a template literal prints for a
    number. *)
Definition toString (v : number) : string :=
  match Prim2SF v with
  | S754_nan => "NaN"
  | S754_zero _ => "0"
  | S754_infinity negative => if negative then "-Infinity" else "Infinity"
  | S754_finite negative m e =>
      let (s, n) := digits_of m e in
      (if negative then "-" else "") ++ format_digits s n
  end.

(** ToBoolean on a number: false for +0, -0 and NaN. *)
Definition truthy (v : number) : bool :=
  match Prim2SF v with
  | S754_zero _ | S754_nan => false
  | S754_infinity _ | S754_finite _ _ _ => true
  end.

(** The [*] operator. *)
Definition mul (a b : number) : number := PrimFloat.mul a b.

(** The [===] operator on two numbers. *)
Definition strict_eq (a b : number) : bool := PrimFloat.eqb a b.

End JsNumber.

Import JsNumber.

(** The literal [1.5]. *)
Definition one_and_a_half : number := 1.5%float.

(* ------------------------------------------------------------------ *)
(** ** JavaScript strings *)
(* ------------------------------------------------------------------ *)

(** ToBoolean on a string: false exactly for the empty string. *)
Definition str_truthy (s : string) : bool :=
  match s with
  | EmptyString => false
  | String _ _ => true
  end.

(** Array.prototype.join on an array of strings. *)
Definition join (sep : string) (parts : list string) : string :=
  String.concat sep parts.

(** String.prototype.includes. *)
Fixpoint includes (hay needle : string) : bool :=
  String.prefix needle hay
  || match hay with
     | EmptyString => false
     | String _ rest => includes rest needle
     end.

(** [needle] occurs somewhere inside [hay]. *)
Definition Substring (needle hay : string) : Prop :=
  exists before after, hay = before ++ needle ++ after.

(* ------------------------------------------------------------------ *)
(** ** The options interface [CloudinaryTransforms] *)
(* ------------------------------------------------------------------ *)

Inductive Crop : Type :=
| crop_fill | crop_fit | crop_scale | crop_crop | crop_thumb | crop_pad
| crop_limit | crop_mfit | crop_mpad | crop_lfill | crop_lpad.

Definition Crop_str (c : Crop) : string :=
  match c with
  | crop_fill => "fill" | crop_fit => "fit" | crop_scale => "scale"
  | crop_crop => "crop" | crop_thumb => "thumb" | crop_pad => "pad"
  | crop_limit => "limit" | crop_mfit => "mfit" | crop_mpad => "mpad"
  | crop_lfill => "lfill" | crop_lpad => "lpad"
  end.

Inductive Gravity : Type :=
| g_auto | g_center | g_face | g_faces | g_body
| g_north | g_south | g_east | g_west
| g_north_east | g_north_west | g_south_east | g_south_west
| g_xy_center | g_adv_face | g_adv_faces | g_adv_eyes.

Definition Gravity_str (g : Gravity) : string :=
  match g with
  | g_auto => "auto" | g_center => "center" | g_face => "face"
  | g_faces => "faces" | g_body => "body"
  | g_north => "north" | g_south => "south"
  | g_east => "east" | g_west => "west"
  | g_north_east => "north_east" | g_north_west => "north_west"
  | g_south_east => "south_east" | g_south_west => "south_west"
  | g_xy_center => "xy_center" | g_adv_face => "adv_face"
  | g_adv_faces => "adv_faces" | g_adv_eyes => "adv_eyes"
  end.

(** ['auto' | 'auto:best' | 'auto:good' | 'auto:low' | 'auto:eco' | number] *)
Inductive Quality : Type :=
| q_auto | q_auto_best | q_auto_good | q_auto_low | q_auto_eco
| q_num (n : number).

Definition Quality_str (q : Quality) : string :=
  match q with
  | q_auto => "auto" | q_auto_best => "auto:best"
  | q_auto_good => "auto:good" | q_auto_low => "auto:low"
  | q_auto_eco => "auto:eco"
  | q_num n => toString n
  end.

Definition Quality_truthy (q : Quality) : bool :=
  match q with
  | q_num n => truthy n
  | _ => true
  end.

Inductive Format : Type :=
| f_auto | f_webp | f_avif | f_jpg | f_png | f_gif | f_svg | f_bmp | f_tiff.

Definition Format_str (f : Format) : string :=
  match f with
  | f_auto => "auto" | f_webp => "webp" | f_avif => "avif"
  | f_jpg => "jpg" | f_png => "png" | f_gif => "gif"
  | f_svg => "svg" | f_bmp => "bmp" | f_tiff => "tiff"
  end.

Inductive FetchFormat : Type := ff_auto | ff_webp | ff_avif.

Definition FetchFormat_str (f : FetchFormat) : string :=
  match f with
  | ff_auto => "auto" | ff_webp => "webp" | ff_avif => "avif"
  end.

(** ['auto' | number] *)
Inductive Dpr : Type := dpr_auto | dpr_num (n : number).

Definition Dpr_str (d : Dpr) : string :=
  match d with
  | dpr_auto => "auto"
  | dpr_num n => toString n
  end.

Definition Dpr_truthy (d : Dpr) : bool :=
  match d with
  | dpr_auto => true
  | dpr_num n => truthy n
  end.

(** [number | string] *)
Inductive Vignette : Type := vig_num (n : number) | vig_str (s : string).

Definition Vignette_str (v : Vignette) : string :=
  match v with
  | vig_num n => toString n
  | vig_str s => s
  end.

Definition Vignette_truthy (v : Vignette) : bool :=
  match v with
  | vig_num n => truthy n
  | vig_str s => str_truthy s
  end.

(** One property definition of an options object: a field of the interface
    together with a value of the field's type. *)
Inductive property : Type :=
| Width (v : number)
| Height (v : number)
| AspectRatio (v : string)
| CropMode (v : Crop)
| GravityMode (v : Gravity)
| QualityOf (v : Quality)
| FormatOf (v : Format)
| FetchFormatOf (v : FetchFormat)
| DprOf (v : Dpr)
| Brightness (v : number)
| Contrast (v : number)
| Saturation (v : number)
| Gamma (v : number)
| Vibrance (v : number)
| Hue (v : number)
| Opacity (v : number)
| Blur (v : number)
| Sharpen (v : number)
| UnsharpMask (v : string)
| Sepia (v : number)
| Grayscale (v : bool)
| Blackwhite (v : string)
| Negate (v : bool)
| OilPaint (v : number)
| VignetteOf (v : Vignette)
| Pixelate (v : number)
| Border (v : string)
| Background (v : string)
| Angle (v : number)
| Progressive (v : bool)
| ImmutableCache (v : bool)
| StripProfile (v : bool)
| CustomTransform (v : string).

(** The property key under which a definition is stored. *)
Definition key (p : property) : string :=
  match p with
  | Width _ => "width" | Height _ => "height"
  | AspectRatio _ => "aspectRatio"
  | CropMode _ => "crop" | GravityMode _ => "gravity"
  | QualityOf _ => "quality" | FormatOf _ => "format"
  | FetchFormatOf _ => "fetchFormat" | DprOf _ => "dpr"
  | Brightness _ => "brightness" | Contrast _ => "contrast"
  | Saturation _ => "saturation" | Gamma _ => "gamma"
  | Vibrance _ => "vibrance" | Hue _ => "hue" | Opacity _ => "opacity"
  | Blur _ => "blur" | Sharpen _ => "sharpen"
  | UnsharpMask _ => "unsharpMask" | Sepia _ => "sepia"
  | Grayscale _ => "grayscale" | Blackwhite _ => "blackwhite"
  | Negate _ => "negate" | OilPaint _ => "oilPaint"
  | VignetteOf _ => "vignette" | Pixelate _ => "pixelate"
  | Border _ => "border" | Background _ => "background"
  | Angle _ => "angle" | Progressive _ => "progressive"
  | ImmutableCache _ => "immutableCache"
  | StripProfile _ => "stripProfile"
  | CustomTransform _ => "customTransform"
  end.

(** An options object: its property definitions, oldest first.  The object
    literal [{ a: x, b: y }] is [[a x; b y]], and the spread
    [{ ...base, a: x }] is [base ++ [a x]]. *)
Definition CloudinaryTransforms : Type := list property.

(** Reading a field: the definition written last wins; [None] is
    [undefined]. *)
Fixpoint read {A : Type} (sel : property -> option A)
         (t : CloudinaryTransforms) : option A :=
  match t with
  | [] => None
  | p :: rest =>
      match read sel rest with
      | Some v => Some v
      | None => sel p
      end
  end.

Definition width := read (fun p => match p with Width v => Some v | _ => None end).
Definition height := read (fun p => match p with Height v => Some v | _ => None end).
Definition aspectRatio := read (fun p => match p with AspectRatio v => Some v | _ => None end).
Definition crop := read (fun p => match p with CropMode v => Some v | _ => None end).
Definition gravity := read (fun p => match p with GravityMode v => Some v | _ => None end).
Definition quality := read (fun p => match p with QualityOf v => Some v | _ => None end).
Definition format := read (fun p => match p with FormatOf v => Some v | _ => None end).
Definition fetchFormat := read (fun p => match p with FetchFormatOf v => Some v | _ => None end).
Definition dpr := read (fun p => match p with DprOf v => Some v | _ => None end).
Definition brightness := read (fun p => match p with Brightness v => Some v | _ => None end).
Definition contrast := read (fun p => match p with Contrast v => Some v | _ => None end).
Definition saturation := read (fun p => match p with Saturation v => Some v | _ => None end).
Definition gamma := read (fun p => match p with Gamma v => Some v | _ => None end).
Definition vibrance := read (fun p => match p with Vibrance v => Some v | _ => None end).
Definition hue := read (fun p => match p with Hue v => Some v | _ => None end).
Definition opacity := read (fun p => match p with Opacity v => Some v | _ => None end).
Definition blur := read (fun p => match p with Blur v => Some v | _ => None end).
Definition sharpen := read (fun p => match p with Sharpen v => Some v | _ => None end).
Definition unsharpMask := read (fun p => match p with UnsharpMask v => Some v | _ => None end).
Definition sepia := read (fun p => match p with Sepia v => Some v | _ => None end).
Definition grayscale := read (fun p => match p with Grayscale v => Some v | _ => None end).
Definition blackwhite := read (fun p => match p with Blackwhite v => Some v | _ => None end).
Definition negate := read (fun p => match p with Negate v => Some v | _ => None end).
Definition oilPaint := read (fun p => match p with OilPaint v => Some v | _ => None end).
Definition vignette := read (fun p => match p with VignetteOf v => Some v | _ => None end).
Definition pixelate := read (fun p => match p with Pixelate v => Some v | _ => None end).
Definition border := read (fun p => match p with Border v => Some v | _ => None end).
Definition background := read (fun p => match p with Background v => Some v | _ => None end).
Definition angle := read (fun p => match p with Angle v => Some v | _ => None end).
Definition progressive := read (fun p => match p with Progressive v => Some v | _ => None end).
Definition immutableCache := read (fun p => match p with ImmutableCache v => Some v | _ => None end).
Definition stripProfile := read (fun p => match p with StripProfile v => Some v | _ => None end).
Definition customTransform := read (fun p => match p with CustomTransform v => Some v | _ => None end).

(* ------------------------------------------------------------------ *)
(** ** Configuration: [getCloudName] *)
(* ------------------------------------------------------------------ *)

(** The variables of one environment table that the module reads. *)
Record EnvVars : Type := {
  PUBLIC_CLOUDINARY_CLOUD_NAME : option string
}.

(** The two places the cloud name can come from: [import.meta.env] (absent
    when [import.meta] or its [env] is undefined) and [process.env] (absent
    when [process] or its [env] is undefined; [process] itself is a declared
    global wherever the server-side fallback runs). *)
Record Environment : Type := {
  import_meta_env : option EnvVars;
  process_env : option EnvVars
}.

(** [value || fallback] on an optional string. *)
Definition or_string (value : option string) (fallback : string) : string :=
  match value with
  | Some s => if str_truthy s then s else fallback
  | None => fallback
  end.

Definition getCloudName (env : Environment) : string :=
  match import_meta_env env with
  | Some vars => or_string (PUBLIC_CLOUDINARY_CLOUD_NAME vars) "demo"
  | None =>
      match process_env env with
      | Some vars => or_string (PUBLIC_CLOUDINARY_CLOUD_NAME vars) "demo"
      | None => "demo"
      end
  end.

(* ------------------------------------------------------------------ *)
(** ** [buildCloudinaryUrl] *)
(* ------------------------------------------------------------------ *)

(** The value of a field when the field is truthy. *)
Definition truthy_value {A : Type} (is_truthy : A -> bool)
           (field : option A) : option A :=
  match field with
  | Some v => if is_truthy v then Some v else None
  | None => None
  end.

(** [if (field) transformParts.push(token)] *)
Definition push_if {A : Type} (is_truthy : A -> bool)
           (token : A -> string) (field : option A) : list string :=
  match truthy_value is_truthy field with
  | Some v => [token v]
  | None => []
  end.

(** [if (field !== undefined) transformParts.push(token)] *)
Definition push_if_defined {A : Type}
           (token : A -> string) (field : option A) : list string :=
  match field with
  | Some v => [token v]
  | None => []
  end.

(** Truthiness of a value of a string-literal union type. *)
Definition literal_truthy {A : Type} (str : A -> string) (v : A) : bool :=
  str_truthy (str v).

Definition bool_truthy (b : bool) : bool := b.

(** The fetchFormat / format alternative. *)
Definition formatPart (transforms : CloudinaryTransforms) : list string :=
  match truthy_value (literal_truthy FetchFormat_str) (fetchFormat transforms) with
  | Some ff => ["f_" ++ FetchFormat_str ff]
  | None =>
      push_if (literal_truthy Format_str)
              (fun v => "f_" ++ Format_str v) (format transforms)
  end.

Definition vignetteToken (v : Vignette) : string :=
  "e_vignette"
    ++ match v with
       | vig_num n => ":" ++ toString n
       | vig_str s => ":" ++ s
       end.

(** The array [transformParts] once every push has run. *)
Definition transformParts (transforms : CloudinaryTransforms) : list string :=
  List.concat [
    (* Dimensions *)
    push_if truthy (fun v => "w_" ++ toString v) (width transforms);
    push_if truthy (fun v => "h_" ++ toString v) (height transforms);
    push_if str_truthy (fun v => "ar_" ++ v) (aspectRatio transforms);
    (* Device pixel ratio *)
    push_if Dpr_truthy (fun v => "dpr_" ++ Dpr_str v) (dpr transforms);
    (* Cropping and fitting *)
    push_if (literal_truthy Crop_str)
            (fun v => "c_" ++ Crop_str v) (crop transforms);
    push_if (literal_truthy Gravity_str)
            (fun v => "g_" ++ Gravity_str v) (gravity transforms);
    (* Quality and format *)
    push_if Quality_truthy (fun v => "q_" ++ Quality_str v) (quality transforms);
    formatPart transforms;
    (* Basic adjustments *)
    push_if_defined (fun v => "e_brightness:" ++ toString v) (brightness transforms);
    push_if_defined (fun v => "e_contrast:" ++ toString v) (contrast transforms);
    push_if_defined (fun v => "e_saturation:" ++ toString v) (saturation transforms);
    push_if_defined (fun v => "e_gamma:" ++ toString v) (gamma transforms);
    push_if_defined (fun v => "e_vibrance:" ++ toString v) (vibrance transforms);
    (* Color adjustments *)
    push_if_defined (fun v => "e_hue:" ++ toString v) (hue transforms);
    push_if_defined (fun v => "o_" ++ toString v) (opacity transforms);
    (* Effects *)
    push_if truthy (fun v => "e_blur:" ++ toString v) (blur transforms);
    push_if truthy (fun v => "e_sharpen:" ++ toString v) (sharpen transforms);
    push_if str_truthy (fun v => "e_unsharp_mask:" ++ v) (unsharpMask transforms);
    (* Artistic effects *)
    push_if truthy (fun v => "e_sepia:" ++ toString v) (sepia transforms);
    push_if bool_truthy (fun _ => "e_grayscale") (grayscale transforms);
    push_if str_truthy (fun v => "e_blackwhite:" ++ v) (blackwhite transforms);
    push_if bool_truthy (fun _ => "e_negate") (negate transforms);
    push_if truthy (fun v => "e_oil_paint:" ++ toString v) (oilPaint transforms);
    push_if Vignette_truthy vignetteToken (vignette transforms);
    push_if truthy (fun v => "e_pixelate:" ++ toString v) (pixelate transforms);
    (* Borders and backgrounds *)
    push_if str_truthy (fun v => "bo_" ++ v) (border transforms);
    push_if str_truthy (fun v => "b_" ++ v) (background transforms);
    (* Rotation *)
    push_if truthy (fun v => "a_" ++ toString v) (angle transforms);
    (* Flags *)
    push_if bool_truthy (fun _ => "fl_progressive") (progressive transforms);
    push_if bool_truthy (fun _ => "fl_immutable_cache") (immutableCache transforms);
    push_if bool_truthy (fun _ => "fl_strip_profile") (stripProfile transforms);
    (* Custom transformations *)
    push_if str_truthy (fun v => v) (customTransform transforms)
  ].

Definition baseUrl (env : Environment) : string :=
  "https://res.cloudinary.com/" ++ getCloudName env ++ "/image/upload".

(** [transformParts.length > 0 ? transformParts.join(',') + '/' : ''] *)
Definition transformString (transforms : CloudinaryTransforms) : string :=
  match transformParts transforms with
  | [] => ""
  | parts => join "," parts ++ "/"
  end.

Definition buildCloudinaryUrl (env : Environment) (publicId : string)
           (transforms : CloudinaryTransforms) : string :=
  baseUrl env ++ "/" ++ transformString transforms ++ publicId.

(* ------------------------------------------------------------------ *)
(** ** Responsive sets, placeholder, identifier check *)
(* ------------------------------------------------------------------ *)

Definition RESPONSIVE_BREAKPOINTS : list (string * number) :=
  [ ("mobile", ofZ 400); ("tablet", ofZ 800);
    ("desktop", ofZ 1200); ("large", ofZ 1600) ].

(** Object.values: the property values in insertion order. *)
Definition Object_values {A : Type} (o : list (string * A)) : list A :=
  map snd o.

(** [field || fallback] *)
Definition or_else {A : Type} (is_truthy : A -> bool)
           (field : option A) (fallback : A) : A :=
  match truthy_value is_truthy field with
  | Some v => v
  | None => fallback
  end.

Record SrcSet : Type := { srcset : string; sizes : string }.

Definition default_sizes : string :=
  "(max-width: 640px) 400px, (max-width: 1024px) 800px, (max-width: 1440px) 1200px, 1600px".

(** The options object built for one breakpoint by
    [getCloudinaryResponsiveSet]. *)
Definition responsiveTransforms (baseTransforms : CloudinaryTransforms)
           (w : number) : CloudinaryTransforms :=
  (baseTransforms
     ++ [ Width w;
          CropMode (or_else (literal_truthy Crop_str) (crop baseTransforms) crop_fill);
          QualityOf (or_else Quality_truthy (quality baseTransforms) q_auto);
          FormatOf f_webp ])%list.

(** The array [srcsetEntries] of [getCloudinaryResponsiveSet]. *)
Definition responsiveSrcsetEntries (env : Environment) (publicId : string)
           (baseTransforms : CloudinaryTransforms) : list string :=
  map (fun w =>
         let url := buildCloudinaryUrl env publicId
                      (responsiveTransforms baseTransforms w) in
         url ++ " " ++ toString w ++ "w")
      (Object_values RESPONSIVE_BREAKPOINTS).

Definition getCloudinaryResponsiveSet (env : Environment) (publicId : string)
           (baseTransforms : CloudinaryTransforms) : SrcSet :=
  {| srcset := join ", " (responsiveSrcsetEntries env publicId baseTransforms);
     sizes := default_sizes |}.

Definition getPlaceholderUrl (env : Environment) (publicId : string) : string :=
  buildCloudinaryUrl env publicId
    [ Width (ofZ 50); QualityOf q_auto_low; Blur (ofZ 400);
      FetchFormatOf ff_auto ].

(** [supportDpr ? [1, 1.5, 2] : [1]] *)
Definition dprValues (supportDpr : bool) : list number :=
  if supportDpr then [ofZ 1; one_and_a_half; ofZ 2] else [ofZ 1].

(** The options object built for one breakpoint and one pixel ratio by
    [getCloudinaryDprSrcset]. *)
Definition dprTransforms (baseTransforms : CloudinaryTransforms)
           (w d : number) : CloudinaryTransforms :=
  (baseTransforms
     ++ [ Width w;
          DprOf (dpr_num d);
          CropMode (or_else (literal_truthy Crop_str) (crop baseTransforms) crop_fill);
          QualityOf (or_else Quality_truthy (quality baseTransforms) q_auto);
          FetchFormatOf ff_auto ])%list.

(** [dpr === 1 ? `${width}w` : `${width * dpr}w`] *)
Definition dprDescriptor (w d : number) : string :=
  if strict_eq d (ofZ 1) then toString w ++ "w"
  else toString (mul w d) ++ "w".

(** The array [srcsetEntries] of [getCloudinaryDprSrcset]: the outer loop
    runs over the breakpoints, the inner one over the pixel ratios. *)
Definition dprSrcsetEntries (env : Environment) (publicId : string)
           (baseTransforms : CloudinaryTransforms) (supportDpr : bool)
  : list string :=
  flat_map
    (fun w =>
       map (fun d =>
              let url := buildCloudinaryUrl env publicId
                           (dprTransforms baseTransforms w d) in
              url ++ " " ++ dprDescriptor w d)
           (dprValues supportDpr))
    (Object_values RESPONSIVE_BREAKPOINTS).

Definition getCloudinaryDprSrcset (env : Environment) (publicId : string)
           (baseTransforms : CloudinaryTransforms) (supportDpr : bool) : SrcSet :=
  {| srcset := join ", " (dprSrcsetEntries env publicId baseTransforms supportDpr);
     sizes := default_sizes |}.

(** One item of a regular-expression character class. *)
Inductive ClassItem : Type :=
| Range (lo hi : ascii)
| Single (c : ascii).

Definition item_matches (c : ascii) (i : ClassItem) : bool :=
  match i with
  | Range lo hi =>
      (nat_of_ascii lo <=? nat_of_ascii c)%nat
      && (nat_of_ascii c <=? nat_of_ascii hi)%nat
  | Single d => Ascii.eqb c d
  end.

Definition class_matches (cls : list ClassItem) (c : ascii) : bool :=
  existsb (item_matches c) cls.

(** [/^[cls]+$/.test(s)]: the whole input is one or more characters of the
    class. *)
Definition test_class_plus (cls : list ClassItem) (s : string) : bool :=
  match list_ascii_of_string s with
  | [] => false
  | chars => forallb (class_matches cls) chars
  end.

(** The class [[a-zA-Z0-9_\-\/\.]]. *)
Definition validIdClass : list ClassItem :=
  [ Range "a" "z"; Range "A" "Z"; Range "0" "9";
    Single "_"; Single "-"; Single "/"; Single "." ]%char.

(** The argument is a string by its type, so of the first test
    [!publicId || typeof publicId !== 'string'] only the emptiness check can
    fire. *)
Definition validatePublicId (publicId : string) : bool :=
  if negb (str_truthy publicId) then false
  else test_class_plus validIdClass publicId
       && (0 <? String.length publicId)%nat.

(* ------------------------------------------------------------------ *)
(** ** Vocabulary of the stated properties *)
(* ------------------------------------------------------------------ *)

(** The option fields that can hold a number. *)
Inductive NumericField : Type :=
| nf_width | nf_height | nf_dpr | nf_quality
| nf_brightness | nf_contrast | nf_saturation | nf_gamma | nf_vibrance
| nf_hue | nf_opacity
| nf_blur | nf_sharpen | nf_sepia | nf_oilPaint | nf_vignette | nf_pixelate
| nf_angle.

(** The number a field holds, when it holds one. *)
Definition numericValue (f : NumericField) (t : CloudinaryTransforms)
  : option number :=
  match f with
  | nf_width => width t
  | nf_height => height t
  | nf_dpr => match dpr t with Some (dpr_num n) => Some n | _ => None end
  | nf_quality => match quality t with Some (q_num n) => Some n | _ => None end
  | nf_brightness => brightness t
  | nf_contrast => contrast t
  | nf_saturation => saturation t
  | nf_gamma => gamma t
  | nf_vibrance => vibrance t
  | nf_hue => hue t
  | nf_opacity => opacity t
  | nf_blur => blur t
  | nf_sharpen => sharpen t
  | nf_sepia => sepia t
  | nf_oilPaint => oilPaint t
  | nf_vignette => match vignette t with Some (vig_num n) => Some n | _ => None end
  | nf_pixelate => pixelate t
  | nf_angle => angle t
  end.

(** The token of a numeric field: its code followed by the number as the
    template literal prints it. *)
Definition numericToken (f : NumericField) (v : number) : string :=
  match f with
  | nf_width => "w_" ++ toString v
  | nf_height => "h_" ++ toString v
  | nf_dpr => "dpr_" ++ toString v
  | nf_quality => "q_" ++ toString v
  | nf_brightness => "e_brightness:" ++ toString v
  | nf_contrast => "e_contrast:" ++ toString v
  | nf_saturation => "e_saturation:" ++ toString v
  | nf_gamma => "e_gamma:" ++ toString v
  | nf_vibrance => "e_vibrance:" ++ toString v
  | nf_hue => "e_hue:" ++ toString v
  | nf_opacity => "o_" ++ toString v
  | nf_blur => "e_blur:" ++ toString v
  | nf_sharpen => "e_sharpen:" ++ toString v
  | nf_sepia => "e_sepia:" ++ toString v
  | nf_oilPaint => "e_oil_paint:" ++ toString v
  | nf_vignette => "e_vignette:" ++ toString v
  | nf_pixelate => "e_pixelate:" ++ toString v
  | nf_angle => "a_" ++ toString v
  end.

(** The numeric fields the builder tests with [!== undefined]; every other
    numeric field is tested for truthiness. *)
Definition testedForUndefined (f : NumericField) : bool :=
  match f with
  | nf_brightness | nf_contrast | nf_saturation | nf_gamma | nf_vibrance
  | nf_hue | nf_opacity => true
  | _ => false
  end.

(** The property key of a numeric field. *)
Definition numericKey (f : NumericField) : string :=
  match f with
  | nf_width => "width" | nf_height => "height"
  | nf_dpr => "dpr" | nf_quality => "quality"
  | nf_brightness => "brightness" | nf_contrast => "contrast"
  | nf_saturation => "saturation" | nf_gamma => "gamma"
  | nf_vibrance => "vibrance" | nf_hue => "hue" | nf_opacity => "opacity"
  | nf_blur => "blur" | nf_sharpen => "sharpen" | nf_sepia => "sepia"
  | nf_oilPaint => "oilPaint" | nf_vignette => "vignette"
  | nf_pixelate => "pixelate" | nf_angle => "angle"
  end.

(** The numbers +0, -0 and NaN. *)
Definition ZeroOrNaN (v : number) : Prop :=
  v = 0%float \/ v = (-0)%float \/ v = PrimFloat.nan.

(** The object without any definition of the property [k]. *)
Definition remove_key (k : string) (t : CloudinaryTransforms)
  : CloudinaryTransforms :=
  filter (fun p => negb (String.eqb (key p) k)) t.

(** A token that selects the delivery format. *)
Definition isFormatToken (token : string) : bool :=
  String.prefix "f_" token.

(** The characters an identifier may consist of. *)
Definition between (lo hi c : ascii) : Prop :=
  (nat_of_ascii lo <= nat_of_ascii c /\ nat_of_ascii c <= nat_of_ascii hi)%nat.

Definition is_letter (c : ascii) : Prop :=
  between "a" "z" c \/ between "A" "Z" c.

Definition is_digit (c : ascii) : Prop := between "0" "9" c.

Definition IdChar (c : ascii) : Prop :=
  is_letter c \/ is_digit c
  \/ c = "_"%char \/ c = "-"%char \/ c = "/"%char \/ c = "."%char.

(** A selector that only ever picks definitions stored under key [k]. *)
Definition selects {A : Type} (sel : property -> option A) (k : string) : Prop :=
  forall p, sel p <> None -> key p = k.

(** Two option objects that read the same through every field selector. *)
Definition same_fields (t1 t2 : CloudinaryTransforms) : Prop :=
  forall (A : Type) (sel : property -> option A) (k : string),
    selects sel k -> read sel t1 = read sel t2.

(** An environment with no configuration at all. *)
Definition bare_env : Environment :=
  {| import_meta_env := None; process_env := None |}.

(* ------------------------------------------------------------------ *)
(** ** [getOptimizedImageUrl] and [getFallbackImageUrl] *)
(* ------------------------------------------------------------------ *)

(** The options argument of [getOptimizedImageUrl]. *)
Record OptimizedOptions : Type := {
  opt_width : option number;
  opt_height : option number;
  opt_quality : option Quality;
  opt_crop : option Crop;
  opt_format : option bool
}.

(** The property [field: value] of an object literal whose value may be
    [undefined]: it then reads like an absent one. *)
Definition define {A : Type} (field : A -> property) (value : option A)
  : list property :=
  match value with
  | Some v => [field v]
  | None => []
  end.

(** [options.format !== false] *)
Definition not_false (b : option bool) : bool :=
  match b with
  | Some false => false
  | _ => true
  end.

(** The object [transforms] of [getOptimizedImageUrl] when it is handed to
    the builder. *)
Definition optimizedTransforms (options : OptimizedOptions)
  : CloudinaryTransforms :=
  let transforms :=
    (define Width (opt_width options)
       ++ define Height (opt_height options)
       ++ [ QualityOf (or_else Quality_truthy (opt_quality options) q_auto);
            CropMode (or_else (literal_truthy Crop_str) (opt_crop options) crop_fill) ])%list in
  if not_false (opt_format options)
  then (transforms ++ [FetchFormatOf ff_auto])%list
  else transforms.

Definition getOptimizedImageUrl (env : Environment) (publicId : string)
           (options : OptimizedOptions) : string :=
  buildCloudinaryUrl env publicId (optimizedTransforms options).

(** A parameter with a default value: the default stands in for
    [undefined] only. *)
Definition default_param {A : Type} (arg : option A) (default : A) : A :=
  match arg with
  | Some v => v
  | None => default
  end.

Definition getFallbackImageUrl (env : Environment)
           (width_arg height_arg : option number) : string :=
  let width := default_param width_arg (ofZ 400) in
  let height := default_param height_arg (ofZ 300) in
  buildCloudinaryUrl env "sample"
    [ Width width; Height height; CropMode crop_fill;
      QualityOf q_auto_low; Background "gray" ].

(** The option fields that hold a string of the caller's own. *)
Inductive StringField : Type :=
| sf_aspectRatio | sf_unsharpMask | sf_blackwhite | sf_vignette
| sf_border | sf_background | sf_customTransform.

Definition stringValue (f : StringField) (t : CloudinaryTransforms)
  : option string :=
  match f with
  | sf_aspectRatio => aspectRatio t
  | sf_unsharpMask => unsharpMask t
  | sf_blackwhite => blackwhite t
  | sf_vignette => match vignette t with Some (vig_str s) => Some s | _ => None end
  | sf_border => border t
  | sf_background => background t
  | sf_customTransform => customTransform t
  end.

Definition stringToken (f : StringField) (s : string) : string :=
  match f with
  | sf_aspectRatio => "ar_" ++ s
  | sf_unsharpMask => "e_unsharp_mask:" ++ s
  | sf_blackwhite => "e_blackwhite:" ++ s
  | sf_vignette => "e_vignette:" ++ s
  | sf_border => "bo_" ++ s
  | sf_background => "b_" ++ s
  | sf_customTransform => s
  end.

(** Two option objects that read the same through every field selector
    whose key is not among [keys]. *)
Definition same_fields_except (keys : list string)
           (t1 t2 : CloudinaryTransforms) : Prop :=
  forall (A : Type) (sel : property -> option A) (k : string),
    selects sel k -> ~ In k keys -> read sel t1 = read sel t2.

(* ------------------------------------------------------------------ *)
(** ** Strings *)
(* ------------------------------------------------------------------ *)

Section StringFacts.

Lemma append_assoc (a b c : string) : (a ++ b) ++ c = a ++ b ++ c.
Proof.
  induction a as [|ch a IH]; simpl; [reflexivity | now rewrite IH].
Qed.

Lemma append_empty_r (a : string) : a ++ "" = a.
Proof.
  induction a as [|ch a IH]; simpl; [reflexivity | now rewrite IH].
Qed.

Lemma prefix_append (a b : string) : String.prefix a (a ++ b) = true.
Proof.
  induction a as [|ch a IH]; simpl.
  - now destruct b.
  - destruct (ascii_dec ch ch) as [_|ne]; [exact IH | now elim ne].
Qed.

Lemma Substring_refl (s : string) : Substring s s.
Proof. exists "", "". simpl. now rewrite append_empty_r. Qed.

Lemma Substring_append_l (x a b : string) :
  Substring x a -> Substring x (a ++ b).
Proof.
  intros (p & q & ->). exists p, (q ++ b).
  now rewrite !append_assoc.
Qed.

Lemma Substring_append_r (x a b : string) :
  Substring x b -> Substring x (a ++ b).
Proof.
  intros (p & q & ->). exists (a ++ p), q.
  now rewrite !append_assoc.
Qed.

Lemma includes_unfold (hay needle : string) :
  includes hay needle
  = String.prefix needle hay
    || match hay with
       | EmptyString => false
       | String _ rest => includes rest needle
       end.
Proof. destruct hay; reflexivity. Qed.

(** [includes] finds every occurrence. *)
Lemma Substring_includes (needle hay : string) :
  Substring needle hay -> includes hay needle = true.
Proof.
  intros (p & q & ->).
  induction p as [|ch p IH]; rewrite includes_unfold.
  - simpl append. now rewrite prefix_append.
  - change (String ch p ++ needle ++ q) with (String ch (p ++ needle ++ q)).
    cbv iota. rewrite IH. apply orb_true_r.
Qed.

Lemma In_join_Substring (sep x : string) (parts : list string) :
  In x parts -> Substring x (join sep parts).
Proof.
  unfold join.
  induction parts as [|y [|z rest] IH]; intros Hin.
  - destruct Hin.
  - destruct Hin as [->|[]]. apply Substring_refl.
  - destruct Hin as [->|Hin].
    + cbn [String.concat]. apply Substring_append_l, Substring_refl.
    + change (String.concat sep (y :: z :: rest))
        with (y ++ sep ++ String.concat sep (z :: rest)).
      now apply Substring_append_r, Substring_append_r, IH.
Qed.

End StringFacts.

(* ------------------------------------------------------------------ *)
(** ** Shape of the returned URL *)
(* ------------------------------------------------------------------ *)

Lemma baseUrl_append (env : Environment) (rest : string) :
  baseUrl env ++ "/" ++ rest
  = "https://res.cloudinary.com/" ++ getCloudName env ++ "/image/upload/" ++ rest.
Proof.
  unfold baseUrl. rewrite !append_assoc. reflexivity.
Qed.

Lemma buildCloudinaryUrl_shape (env : Environment) (publicId : string)
      (t : CloudinaryTransforms) :
  buildCloudinaryUrl env publicId t
  = "https://res.cloudinary.com/" ++ getCloudName env ++ "/image/upload/"
      ++ transformString t ++ publicId.
Proof.
  unfold buildCloudinaryUrl. apply baseUrl_append.
Qed.

(** C1. With the empty options object the builder returns exactly
    [https://res.cloudinary.com/<account>/image/upload/<id>]: the transform
    segment is left out altogether, so a single slash separates [upload]
    from the identifier. *)
Theorem buildCloudinaryUrl_no_options (env : Environment) (publicId : string) :
  transformString [] = ""
  /\ buildCloudinaryUrl env publicId []
     = "https://res.cloudinary.com/" ++ getCloudName env
         ++ "/image/upload/" ++ publicId.
Proof.
  split; [reflexivity|].
  rewrite buildCloudinaryUrl_shape. reflexivity.
Qed.

(** C2. The worked example: width 300, height 200, crop "fill" and quality
    "auto:good" on "shoes/red" give the root, then the segment
    [w_300,h_200,c_fill,q_auto:good], then [/shoes/red]. *)
Theorem buildCloudinaryUrl_shoes_red (env : Environment) :
  transformParts [ Width (ofZ 300); Height (ofZ 200);
                   CropMode crop_fill; QualityOf q_auto_good ]
  = [ "w_300"; "h_200"; "c_fill"; "q_auto:good" ]
  /\ buildCloudinaryUrl env "shoes/red"
       [ Width (ofZ 300); Height (ofZ 200);
         CropMode crop_fill; QualityOf q_auto_good ]
     = "https://res.cloudinary.com/" ++ getCloudName env ++ "/image/upload/"
         ++ "w_300,h_200,c_fill,q_auto:good" ++ "/shoes/red".
Proof.
  split; [reflexivity|].
  rewrite buildCloudinaryUrl_shape. reflexivity.
Qed.

(** C8. The builder has no failing path: for every identifier and every
    options object it returns the root, the transform segment and the
    identifier, one after the other.  The empty identifier, which the
    identifier check would refuse, is accepted like any other: with no
    options the result is the base URL ending in [upload/], that is, with an
    empty last path segment. *)
Theorem buildCloudinaryUrl_empty_identifier (env : Environment) :
  (forall publicId t, exists segment,
      buildCloudinaryUrl env publicId t
      = "https://res.cloudinary.com/" ++ getCloudName env
          ++ "/image/upload/" ++ segment ++ publicId)
  /\ validatePublicId "" = false
  /\ buildCloudinaryUrl env "" []
     = "https://res.cloudinary.com/" ++ getCloudName env ++ "/image/upload/".
Proof.
  split; [|split].
  - intros publicId t. exists (transformString t).
    apply buildCloudinaryUrl_shape.
  - reflexivity.
  - rewrite buildCloudinaryUrl_shape. reflexivity.
Qed.

(** C5. Whatever the identifier, the placeholder URL carries the tokens
    [w_50] and [e_blur:400] in its transform segment: a width token of
    value at most 50 and a blur token. *)
Theorem getPlaceholderUrl_small_and_blurred (env : Environment) (publicId : string) :
  exists (parts : list string) (w : Z) (b : number),
    getPlaceholderUrl env publicId
    = "https://res.cloudinary.com/" ++ getCloudName env ++ "/image/upload/"
        ++ join "," parts ++ "/" ++ publicId
    /\ parts = [ "w_50"; "q_auto:low"; "f_auto"; "e_blur:400" ]
    /\ In ("w_" ++ toString (ofZ w)) parts /\ (w <= 50)%Z
    /\ In ("e_blur:" ++ toString b) parts.
Proof.
  exists [ "w_50"; "q_auto:low"; "f_auto"; "e_blur:400" ], 50%Z, (ofZ 400).
  split; [|split; [reflexivity|split; [|split]]].
  - unfold getPlaceholderUrl. rewrite buildCloudinaryUrl_shape. reflexivity.
  - left. reflexivity.
  - lia.
  - right; right; right; left. reflexivity.
Qed.

(* ------------------------------------------------------------------ *)
(** ** Reading fields of option objects *)
(* ------------------------------------------------------------------ *)

Section Reading.

Context {A : Type} (sel : property -> option A).

(** Definitions appended to an object shadow the older ones. *)
Lemma read_app (t u : CloudinaryTransforms) :
  read sel (t ++ u)%list
  = match read sel u with
    | Some v => Some v
    | None => read sel t
    end.
Proof.
  induction t as [|p t IH]; simpl.
  - now destruct (read sel u).
  - rewrite IH. now destruct (read sel u).
Qed.

Lemma read_none_not_selected (t : CloudinaryTransforms) (k : string) :
  selects sel k -> ~ In k (map key t) -> read sel t = None.
Proof.
  intros Hsel. induction t as [|p t IH]; simpl; intros Hnot; [reflexivity|].
  rewrite IH by tauto.
  destruct (sel p) eqn:E; [|reflexivity].
  exfalso. apply Hnot. left. apply Hsel. congruence.
Qed.

(** The order in which distinct fields were written cannot be observed
    by reading. *)
Lemma read_Permutation (k : string) (t1 t2 : CloudinaryTransforms) :
  selects sel k ->
  Permutation t1 t2 -> NoDup (map key t1) -> read sel t1 = read sel t2.
Proof.
  intros Hsel Hperm.
  induction Hperm as [|p t1 t2 Hperm IH|p q t|t1 t2 t3 H12 IH12 H23 IH23];
    intros Hnodup.
  - reflexivity.
  - simpl. inversion Hnodup; subst. now rewrite IH.
  - simpl. destruct (read sel t) as [v|]; [reflexivity|].
    destruct (sel p) eqn:Ep, (sel q) eqn:Eq; try reflexivity.
    exfalso.
    assert (key p = k) as Kp by (apply Hsel; congruence).
    assert (key q = k) as Kq by (apply Hsel; congruence).
    simpl in Hnodup. inversion Hnodup as [|? ? Hnotin _]; subst.
    apply Hnotin. left. congruence.
  - rewrite IH12 by assumption. apply IH23.
    eapply Permutation_NoDup; [|eassumption].
    now apply Permutation_map.
Qed.

End Reading.

Lemma same_fields_Permutation (t1 t2 : CloudinaryTransforms) :
  Permutation t1 t2 -> NoDup (map key t1) -> same_fields t1 t2.
Proof.
  intros Hperm Hnodup A sel k Hsel.
  now apply read_Permutation with (k := k).
Qed.

(** Discharges [selects sel ?k] for the selector of one field. *)
Ltac selects_field :=
  let p := fresh "p" in
  let Hp := fresh "Hp" in
  intros p Hp; destruct p; simpl in Hp |- *;
  try (exfalso; apply Hp; reflexivity); reflexivity.

(** The builder looks at an options object through its fields only. *)
Lemma transformParts_same_fields (t1 t2 : CloudinaryTransforms) :
  same_fields t1 t2 -> transformParts t1 = transformParts t2.
Proof.
  intros Hsame.
  unfold transformParts, formatPart,
    width, height, aspectRatio, crop, gravity, quality, format, fetchFormat,
    dpr, brightness, contrast, saturation, gamma, vibrance, hue, opacity,
    blur, sharpen, unsharpMask, sepia, grayscale, blackwhite, negate,
    oilPaint, vignette, pixelate, border, background, angle, progressive,
    immutableCache, stripProfile, customTransform.
  repeat match goal with
         | |- context [read ?s t1] =>
             rewrite (Hsame _ s _ ltac:(selects_field))
         end.
  reflexivity.
Qed.

Lemma buildCloudinaryUrl_same_fields (env : Environment) (publicId : string)
      (t1 t2 : CloudinaryTransforms) :
  same_fields t1 t2 ->
  buildCloudinaryUrl env publicId t1 = buildCloudinaryUrl env publicId t2.
Proof.
  intros Hsame. unfold buildCloudinaryUrl, transformString.
  now rewrite (transformParts_same_fields t1 t2 Hsame).
Qed.

(** C4. The builder is deterministic.  With the configuration fixed, two
    calls on equal identifiers return the same string when the two options
    objects are identical, and also when they hold the same property
    definitions, each field once, written in a different order. *)
Theorem buildCloudinaryUrl_deterministic
        (env : Environment) (id1 id2 : string) (t1 t2 : CloudinaryTransforms) :
  id1 = id2 ->
  t1 = t2 \/ (NoDup (map key t1) /\ Permutation t1 t2) ->
  buildCloudinaryUrl env id1 t1 = buildCloudinaryUrl env id2 t2.
Proof.
  intros -> [->|[Hnodup Hperm]]; [reflexivity|].
  apply buildCloudinaryUrl_same_fields.
  now apply same_fields_Permutation.
Qed.

Lemma buildCloudinaryUrl_deterministic_witness :
  buildCloudinaryUrl bare_env "shoes/red"
    [ Width (ofZ 300); CropMode crop_fill; QualityOf q_auto_good ]
  = buildCloudinaryUrl bare_env "shoes/red"
      [ QualityOf q_auto_good; Width (ofZ 300); CropMode crop_fill ].
Proof.
  apply buildCloudinaryUrl_deterministic; [reflexivity|].
  right. split.
  - repeat constructor; simpl; intuition discriminate.
  - apply Permutation_sym, (Permutation_cons_app [_; _] []).
    apply Permutation_refl.
Defined.

(* ------------------------------------------------------------------ *)
(** ** Tokens pushed by the builder *)
(* ------------------------------------------------------------------ *)

Section Pushes.

Context {A : Type} (is_truthy : A -> bool) (token : A -> string).

Lemma push_if_In (field : option A) (v : A) (x : string) :
  field = Some v -> is_truthy v = true -> x = token v ->
  In x (push_if is_truthy token field).
Proof.
  intros -> Htruthy ->. unfold push_if, truthy_value.
  rewrite Htruthy. now left.
Qed.

Lemma push_if_defined_In (field : option A) (v : A) (x : string) :
  field = Some v -> x = token v -> In x (push_if_defined token field).
Proof.
  intros -> ->. now left.
Qed.

Lemma push_if_falsy (field : option A) (v : A) :
  field = Some v -> is_truthy v = false ->
  push_if is_truthy token field = [].
Proof.
  intros -> Hfalsy. unfold push_if, truthy_value. now rewrite Hfalsy.
Qed.

(** A push whose token never satisfies [keep] leaves nothing behind
    a filter on [keep]. *)
Lemma filter_push_if (keep : string -> bool) (field : option A) :
  (forall v, keep (token v) = false) ->
  filter keep (push_if is_truthy token field) = [].
Proof.
  intros Hdrop. unfold push_if.
  destruct (truthy_value is_truthy field) as [v|]; simpl; [|reflexivity].
  now rewrite Hdrop.
Qed.

Lemma filter_push_if_defined (keep : string -> bool) (field : option A) :
  (forall v, keep (token v) = false) ->
  filter keep (push_if_defined token field) = [].
Proof.
  intros Hdrop. destruct field as [v|]; simpl; [|reflexivity].
  now rewrite Hdrop.
Qed.

End Pushes.

(** Every value of a string-literal union type is a non-empty string. *)
Lemma Crop_truthy (c : Crop) : literal_truthy Crop_str c = true.
Proof. now destruct c. Qed.

Lemma Format_truthy (f : Format) : literal_truthy Format_str f = true.
Proof. now destruct f. Qed.

Lemma FetchFormat_truthy (f : FetchFormat) :
  literal_truthy FetchFormat_str f = true.
Proof. now destruct f. Qed.

(** Walks the pushes of [transformParts] in order and stops at the one that
    pushes the token of the goal. *)
Ltac find_push :=
  solve [ unfold transformParts; rewrite ?concat_cons;
          repeat (apply in_or_app;
                  first [ left;
                          solve [ eapply push_if_In;
                                  [eassumption | simpl; assumption | reflexivity]
                                | eapply push_if_defined_In;
                                  [eassumption | reflexivity] ]
                        | right ]) ].

(** A pushed token is part of the returned URL. *)
Lemma pushed_token_in_url (env : Environment) (publicId x : string)
      (t : CloudinaryTransforms) :
  In x (transformParts t) -> Substring x (buildCloudinaryUrl env publicId t).
Proof.
  intros Hin. unfold buildCloudinaryUrl, transformString.
  destruct (transformParts t) as [|y rest] eqn:E; [destruct Hin|].
  apply Substring_append_r, Substring_append_r, Substring_append_l,
    Substring_append_l.
  now apply In_join_Substring.
Qed.

Lemma numericToken_pushed (f : NumericField) (v : number)
      (t : CloudinaryTransforms) :
  numericValue f t = Some v ->
  testedForUndefined f = true \/ truthy v = true ->
  In (numericToken f v) (transformParts t).
Proof.
  intros Hval Hguard.
  destruct f; simpl in Hval, Hguard |- *;
    try (destruct Hguard as [Hguard|Hguard]; [discriminate Hguard|]);
    try find_push.
  - destruct (dpr t) as [[|n]|] eqn:E; try discriminate Hval.
    injection Hval as ->. find_push.
  - destruct (quality t) as [[| | | | |n]|] eqn:E; try discriminate Hval.
    injection Hval as ->. find_push.
  - destruct (vignette t) as [[n|s]|] eqn:E; try discriminate Hval.
    injection Hval as ->. find_push.
Qed.

Lemma truthy_ZeroOrNaN (v : number) : truthy v = false <-> ZeroOrNaN v.
Proof.
  split.
  - unfold truthy, ZeroOrNaN. intros H.
    rewrite <- (SF2Prim_Prim2SF v).
    destruct (Prim2SF v) as [[|]| | |]; try discriminate H;
      [right; left | left | right; right]; reflexivity.
  - intros [-> | [-> | ->]]; reflexivity.
Qed.

Section RemoveKey.

Context {A : Type} (sel : property -> option A).

Lemma read_remove_key_other (k k' : string) (t : CloudinaryTransforms) :
  selects sel k' -> k' <> k -> read sel (remove_key k t) = read sel t.
Proof.
  intros Hsel Hne. unfold remove_key.
  induction t as [|p t IH]; [reflexivity|].
  cbn [filter read].
  destruct (String.eqb (key p) k) eqn:E; cbn [negb read]; rewrite IH.
  - apply String.eqb_eq in E.
    destruct (sel p) eqn:Ep; [|now destruct (read sel t)].
    exfalso. apply Hne. rewrite <- E. symmetry. apply Hsel. congruence.
  - reflexivity.
Qed.

Lemma read_remove_key_same (k : string) (t : CloudinaryTransforms) :
  selects sel k -> read sel (remove_key k t) = None.
Proof.
  intros Hsel. apply read_none_not_selected with (k := k); [exact Hsel|].
  unfold remove_key. rewrite in_map_iff. intros (p & Hkey & Hin).
  apply filter_In in Hin as [_ Hkeep].
  rewrite <- Hkey, String.eqb_refl in Hkeep. discriminate Hkeep.
Qed.

End RemoveKey.

Lemma same_fields_except_remove_key (k : string) (t : CloudinaryTransforms) :
  same_fields_except [k] t (remove_key k t).
Proof.
  intros A sel k' Hsel Hnot. symmetry.
  apply read_remove_key_other with (k' := k'); [exact Hsel|].
  intros ->. apply Hnot. now left.
Qed.

Lemma push_if_None {A : Type} (is_truthy : A -> bool) (token : A -> string) :
  push_if is_truthy token None = [].
Proof. reflexivity. Qed.

(** Finishes the comparison of two token lists once the pushes of the
    field that differs have been emptied on both sides. *)
Ltac other_pushes_agree H t :=
  unfold formatPart,
    width, height, aspectRatio, crop, gravity, quality, format, fetchFormat,
    dpr, brightness, contrast, saturation, gamma, vibrance, hue, opacity,
    blur, sharpen, unsharpMask, sepia, grayscale, blackwhite, negate,
    oilPaint, vignette, pixelate, border, background, angle, progressive,
    immutableCache, stripProfile, customTransform;
  repeat match goal with
         | |- context [read ?s t] =>
             rewrite (H _ s _ ltac:(selects_field))
               by (simpl; intuition discriminate)
         end;
  reflexivity.

(** Empties the push of a field that the second object lacks. *)
Ltac field_absent Habsent a t' :=
  let Ha := fresh "Ha" in
  assert (a t' = None) as Ha by (apply Habsent; selects_field);
  rewrite Ha, push_if_None; clear Ha.

(** A falsy number in a field tested for truthiness leaves no trace: the
    tokens are those of any object that lacks the field and agrees on every
    other one. *)
Lemma falsy_number_leaves_no_token
      (f : NumericField) (v : number) (t t' : CloudinaryTransforms) :
  testedForUndefined f = false ->
  numericValue f t = Some v ->
  truthy v = false ->
  same_fields_except [numericKey f] t t' ->
  (forall (A : Type) (sel : property -> option A),
      selects sel (numericKey f) -> read sel t' = None) ->
  transformParts t = transformParts t'.
Proof.
  intros Htested Hval Hfalsy Hsame Habsent.
  destruct f; try discriminate Htested; simpl in Hval, Hsame, Habsent;
    unfold transformParts.
  - rewrite (push_if_falsy truthy _ _ v Hval Hfalsy).
    field_absent Habsent width t'.
    other_pushes_agree Hsame t.
  - rewrite (push_if_falsy truthy _ _ v Hval Hfalsy).
    field_absent Habsent height t'.
    other_pushes_agree Hsame t.
  - destruct (dpr t) as [[|n]|] eqn:E; try discriminate Hval.
    injection Hval as ->.
    rewrite (push_if_falsy Dpr_truthy _ _ (dpr_num v) eq_refl Hfalsy).
    field_absent Habsent dpr t'.
    other_pushes_agree Hsame t.
  - destruct (quality t) as [[| | | | |n]|] eqn:E; try discriminate Hval.
    injection Hval as ->.
    rewrite (push_if_falsy Quality_truthy _ _ (q_num v) eq_refl Hfalsy).
    field_absent Habsent quality t'.
    other_pushes_agree Hsame t.
  - rewrite (push_if_falsy truthy _ _ v Hval Hfalsy).
    field_absent Habsent blur t'.
    other_pushes_agree Hsame t.
  - rewrite (push_if_falsy truthy _ _ v Hval Hfalsy).
    field_absent Habsent sharpen t'.
    other_pushes_agree Hsame t.
  - rewrite (push_if_falsy truthy _ _ v Hval Hfalsy).
    field_absent Habsent sepia t'.
    other_pushes_agree Hsame t.
  - rewrite (push_if_falsy truthy _ _ v Hval Hfalsy).
    field_absent Habsent oilPaint t'.
    other_pushes_agree Hsame t.
  - destruct (vignette t) as [[n|s]|] eqn:E; try discriminate Hval.
    injection Hval as ->.
    rewrite (push_if_falsy Vignette_truthy _ _ (vig_num v) eq_refl Hfalsy).
    field_absent Habsent vignette t'.
    other_pushes_agree Hsame t.
  - rewrite (push_if_falsy truthy _ _ v Hval Hfalsy).
    field_absent Habsent pixelate t'.
    other_pushes_agree Hsame t.
  - rewrite (push_if_falsy truthy _ _ v Hval Hfalsy).
    field_absent Habsent angle t'.
    other_pushes_agree Hsame t.
Qed.

(** C3, as the code has it.  A populated numeric field puts its value, as
    the template literal prints it, into the field's token whenever the
    field is one the builder tests with [!== undefined] (brightness,
    contrast, saturation, gamma, vibrance, hue, opacity: zero included) or
    the value is truthy (none of +0, -0 and NaN).  No range is checked: the
    token holds the printed value whatever its magnitude or sign.  In the
    fields tested for truthiness a zero or NaN is omitted: the tokens and
    the URL are those of the object without that field. *)
Theorem numeric_value_emitted_verbatim
        (env : Environment) (publicId : string) (t : CloudinaryTransforms)
        (f : NumericField) (v : number) :
  numericValue f t = Some v ->
  (testedForUndefined f = true \/ ~ ZeroOrNaN v ->
   In (numericToken f v) (transformParts t)
   /\ Substring (numericToken f v) (buildCloudinaryUrl env publicId t))
  /\ (testedForUndefined f = false -> ZeroOrNaN v ->
      transformParts t = transformParts (remove_key (numericKey f) t)
      /\ buildCloudinaryUrl env publicId t
         = buildCloudinaryUrl env publicId (remove_key (numericKey f) t)).
Proof.
  intros Hval. split.
  - intros Hguard.
    assert (testedForUndefined f = true \/ truthy v = true) as Hguard'.
    { destruct Hguard as [Hu|Hnot]; [now left | right].
      destruct (truthy v) eqn:E; [reflexivity|].
      now apply truthy_ZeroOrNaN in E. }
    assert (In (numericToken f v) (transformParts t)) as Hin
        by now apply numericToken_pushed.
    split; [exact Hin|]. now apply pushed_token_in_url.
  - intros Htested Hzero. apply truthy_ZeroOrNaN in Hzero.
    assert (transformParts t = transformParts (remove_key (numericKey f) t))
      as Hparts.
    { apply (falsy_number_leaves_no_token f v); try assumption.
      - apply same_fields_except_remove_key.
      - intros A sel Hsel. now apply read_remove_key_same. }
    split; [exact Hparts|].
    unfold buildCloudinaryUrl, transformString. now rewrite Hparts.
Qed.

Lemma numeric_value_emitted_verbatim_witness :
  (In "w_600" (transformParts [Width (ofZ 600); Blur PrimFloat.nan])
   /\ Substring "w_600"
        (buildCloudinaryUrl bare_env "sample"
           [Width (ofZ 600); Blur PrimFloat.nan]))
  /\ transformParts [Width (ofZ 600); Blur PrimFloat.nan]
     = transformParts [Width (ofZ 600)].
Proof.
  split.
  - apply (numeric_value_emitted_verbatim bare_env "sample"
             [Width (ofZ 600); Blur PrimFloat.nan] nf_width (ofZ 600)).
    + reflexivity.
    + right. intros Hzero. apply truthy_ZeroOrNaN in Hzero.
      vm_compute in Hzero. discriminate Hzero.
  - apply (numeric_value_emitted_verbatim bare_env "sample"
             [Width (ofZ 600); Blur PrimFloat.nan] nf_blur PrimFloat.nan).
    + reflexivity.
    + reflexivity.
    + right. right. reflexivity.
Defined.

(** C3, as stated, fails at width 0: the field is populated with a number,
    yet the builder pushes no token at all and the URL holds no [w_0]. *)
Lemma numeric_zero_width_dropped :
  numericValue nf_width [Width (ofZ 0)] = Some (ofZ 0)
  /\ numericToken nf_width (ofZ 0) = "w_0"
  /\ transformParts [Width (ofZ 0)] = []
  /\ buildCloudinaryUrl bare_env "sample" [Width (ofZ 0)]
     = "https://res.cloudinary.com/demo/image/upload/sample"
  /\ ~ Substring (numericToken nf_width (ofZ 0))
         (buildCloudinaryUrl bare_env "sample" [Width (ofZ 0)])
  /\ ~ (forall env publicId t f v,
          numericValue f t = Some v ->
          Substring (numericToken f v) (buildCloudinaryUrl env publicId t)).
Proof.
  assert (~ Substring (numericToken nf_width (ofZ 0))
            (buildCloudinaryUrl bare_env "sample" [Width (ofZ 0)])) as Hnot.
  { intros Hsub. apply Substring_includes in Hsub.
    vm_compute in Hsub. discriminate Hsub. }
  repeat split; try reflexivity; [exact Hnot|].
  intros Hall. apply Hnot, Hall. reflexivity.
Qed.

(* ------------------------------------------------------------------ *)
(** ** Responsive sets *)
(* ------------------------------------------------------------------ *)

Lemma or_else_Crop (field : option Crop) (fallback : Crop) :
  or_else (literal_truthy Crop_str) field fallback
  = match field with Some c => c | None => fallback end.
Proof.
  unfold or_else, truthy_value. destruct field as [c|]; [|reflexivity].
  now rewrite Crop_truthy.
Qed.

Lemma or_else_Quality (field : option Quality) (fallback : Quality) :
  or_else Quality_truthy field fallback
  = match field with
    | Some q => if Quality_truthy q then q else fallback
    | None => fallback
    end.
Proof.
  unfold or_else, truthy_value. destruct field as [q|]; [|reflexivity].
  now destruct (Quality_truthy q).
Qed.

(** Fields of the object built for one breakpoint. *)
Lemma responsiveTransforms_fields (base : CloudinaryTransforms) (w : number) :
  width (responsiveTransforms base w) = Some w
  /\ crop (responsiveTransforms base w)
     = Some (match crop base with Some c => c | None => crop_fill end)
  /\ quality (responsiveTransforms base w)
     = Some (match quality base with
             | Some q => if Quality_truthy q then q else q_auto
             | None => q_auto
             end)
  /\ format (responsiveTransforms base w) = Some f_webp
  /\ forall (A : Type) (sel : property -> option A),
       (forall v, sel (Width v) = None) ->
       (forall v, sel (CropMode v) = None) ->
       (forall v, sel (QualityOf v) = None) ->
       (forall v, sel (FormatOf v) = None) ->
       read sel (responsiveTransforms base w) = read sel base.
Proof.
  unfold responsiveTransforms.
  repeat split.
  - unfold width. now rewrite read_app.
  - unfold crop at 1. rewrite read_app. simpl. now rewrite or_else_Crop.
  - unfold quality at 1. rewrite read_app. simpl. now rewrite or_else_Quality.
  - unfold format. now rewrite read_app.
  - intros A sel Hw Hc Hq Hf. rewrite read_app. simpl.
    now rewrite Hf, Hq, Hc, Hw.
Qed.

(** C6, as the code has it.  The srcset joins exactly four entries, one per
    breakpoint 400, 800, 1200, 1600 in that order; each is the URL built
    from the base options with the width replaced by the breakpoint, crop
    set to the base's crop or "fill" when the base has none, quality set to
    the base's quality or "auto" when the base has none or has a falsy
    number (0 or NaN), and the format set to "webp"; every other field is
    the base's. *)
Theorem getCloudinaryResponsiveSet_entries
        (env : Environment) (publicId : string) (base : CloudinaryTransforms) :
  let url (w : Z) :=
    buildCloudinaryUrl env publicId (responsiveTransforms base (ofZ w)) in
  srcset (getCloudinaryResponsiveSet env publicId base)
  = join ", " (responsiveSrcsetEntries env publicId base)
  /\ responsiveSrcsetEntries env publicId base
     = [ url 400%Z ++ " 400w"; url 800%Z ++ " 800w";
         url 1200%Z ++ " 1200w"; url 1600%Z ++ " 1600w" ]
  /\ forall w : number,
       width (responsiveTransforms base w) = Some w
       /\ crop (responsiveTransforms base w)
          = Some (match crop base with Some c => c | None => crop_fill end)
       /\ quality (responsiveTransforms base w)
          = Some (match quality base with
                  | Some q => if Quality_truthy q then q else q_auto
                  | None => q_auto
                  end)
       /\ format (responsiveTransforms base w) = Some f_webp
       /\ forall (A : Type) (sel : property -> option A),
            (forall v, sel (Width v) = None) ->
            (forall v, sel (CropMode v) = None) ->
            (forall v, sel (QualityOf v) = None) ->
            (forall v, sel (FormatOf v) = None) ->
            read sel (responsiveTransforms base w) = read sel base.
Proof.
  intros url. split; [reflexivity|]. split; [reflexivity|].
  intros w. apply responsiveTransforms_fields.
Qed.

Lemma getCloudinaryResponsiveSet_entries_witness :
  quality (responsiveTransforms [Height (ofZ 300); QualityOf q_auto_best] (ofZ 400))
  = Some q_auto_best
  /\ height (responsiveTransforms [Height (ofZ 300); QualityOf q_auto_best] (ofZ 400))
     = Some (ofZ 300).
Proof.
  destruct (getCloudinaryResponsiveSet_entries bare_env "sample"
              [Height (ofZ 300); QualityOf q_auto_best]) as (_ & _ & Hfields).
  destruct (Hfields (ofZ 400)) as (_ & _ & Hquality & _ & Hother).
  split; [exact Hquality|].
  unfold height. rewrite Hother; reflexivity.
Defined.

(** C6, as stated, fails for a base that sets quality to the number 0: the
    field is set, yet the entries are built with the default "auto". *)
Lemma responsive_quality_zero_defaulted :
  quality [QualityOf (q_num (ofZ 0))] = Some (q_num (ofZ 0))
  /\ quality (responsiveTransforms [QualityOf (q_num (ofZ 0))] (ofZ 400))
     = Some q_auto
  /\ responsiveSrcsetEntries bare_env "sample" [QualityOf (q_num (ofZ 0))]
     = [ "https://res.cloudinary.com/demo/image/upload/w_400,c_fill,q_auto,f_webp/sample 400w";
         "https://res.cloudinary.com/demo/image/upload/w_800,c_fill,q_auto,f_webp/sample 800w";
         "https://res.cloudinary.com/demo/image/upload/w_1200,c_fill,q_auto,f_webp/sample 1200w";
         "https://res.cloudinary.com/demo/image/upload/w_1600,c_fill,q_auto,f_webp/sample 1600w" ]
  /\ ~ (forall base w,
          quality (responsiveTransforms base w)
          = Some (match quality base with Some q => q | None => q_auto end)).
Proof.
  repeat split; try reflexivity.
  intros Hall.
  specialize (Hall [QualityOf (q_num (ofZ 0))] (ofZ 400)).
  discriminate Hall.
Qed.

Lemma dprTransforms_fields (base : CloudinaryTransforms) (w d : number) :
  width (dprTransforms base w d) = Some w
  /\ dpr (dprTransforms base w d) = Some (dpr_num d)
  /\ crop (dprTransforms base w d)
     = Some (match crop base with Some c => c | None => crop_fill end)
  /\ quality (dprTransforms base w d)
     = Some (match quality base with
             | Some q => if Quality_truthy q then q else q_auto
             | None => q_auto
             end)
  /\ fetchFormat (dprTransforms base w d) = Some ff_auto.
Proof.
  unfold dprTransforms.
  repeat split.
  - unfold width. now rewrite read_app.
  - unfold dpr. now rewrite read_app.
  - unfold crop at 1. rewrite read_app. simpl. now rewrite or_else_Crop.
  - unfold quality at 1. rewrite read_app. simpl. now rewrite or_else_Quality.
  - unfold fetchFormat. now rewrite read_app.
Qed.

(** C7. With DPR support on, the entries run over the four breakpoints
    (outer) and the ratios 1, 1.5, 2 (inner), twelve in all; each is the URL
    built with that width and ratio, followed by the descriptor: the
    breakpoint width for ratio 1, the width times the ratio otherwise. *)
Theorem getCloudinaryDprSrcset_entries
        (env : Environment) (publicId : string) (base : CloudinaryTransforms) :
  let url (w : Z) (d : number) :=
    buildCloudinaryUrl env publicId (dprTransforms base (ofZ w) d) in
  dprValues true = [ofZ 1; one_and_a_half; ofZ 2]
  /\ srcset (getCloudinaryDprSrcset env publicId base true)
     = join ", " (dprSrcsetEntries env publicId base true)
  /\ dprSrcsetEntries env publicId base true
     = [ url 400%Z (ofZ 1) ++ " 400w";
         url 400%Z one_and_a_half ++ " 600w";
         url 400%Z (ofZ 2) ++ " 800w";
         url 800%Z (ofZ 1) ++ " 800w";
         url 800%Z one_and_a_half ++ " 1200w";
         url 800%Z (ofZ 2) ++ " 1600w";
         url 1200%Z (ofZ 1) ++ " 1200w";
         url 1200%Z one_and_a_half ++ " 1800w";
         url 1200%Z (ofZ 2) ++ " 2400w";
         url 1600%Z (ofZ 1) ++ " 1600w";
         url 1600%Z one_and_a_half ++ " 2400w";
         url 1600%Z (ofZ 2) ++ " 3200w" ]
  /\ List.length (dprSrcsetEntries env publicId base true) = (4 * 3)%nat
  /\ (forall w d : number,
         width (dprTransforms base w d) = Some w
         /\ dpr (dprTransforms base w d) = Some (dpr_num d))
  /\ (forall w d : number,
         dprDescriptor w d
         = if strict_eq d (ofZ 1) then toString w ++ "w"
           else toString (mul w d) ++ "w")
  /\ strict_eq one_and_a_half (ofZ 1) = false
  /\ strict_eq (ofZ 2) (ofZ 1) = false.
Proof.
  intros url. repeat split; try reflexivity.
  - apply dprTransforms_fields.
  - apply dprTransforms_fields.
Qed.

(* ------------------------------------------------------------------ *)
(** ** Identifier check *)
(* ------------------------------------------------------------------ *)

Lemma class_matches_IdChar (c : ascii) :
  class_matches validIdClass c = true <-> IdChar c.
Proof.
  unfold class_matches, validIdClass, IdChar, is_letter, is_digit, between.
  cbn [existsb item_matches].
  rewrite !orb_true_iff, !andb_true_iff, !Nat.leb_le, !Ascii.eqb_eq.
  intuition discriminate.
Qed.

Lemma test_class_plus_spec (s : string) :
  test_class_plus validIdClass s = true
  <-> s <> "" /\ Forall IdChar (list_ascii_of_string s).
Proof.
  unfold test_class_plus.
  destruct s as [|c s]; cbn [list_ascii_of_string forallb].
  - split; [discriminate | intros [Hne _]; now elim Hne].
  - rewrite andb_true_iff, class_matches_IdChar, forallb_forall.
    split.
    + intros [Hc Hrest]. split; [discriminate|].
      constructor; [exact Hc|].
      apply Forall_forall. intros x Hx. now apply class_matches_IdChar, Hrest.
    + intros [_ Hall]. inversion Hall as [|? ? Hc Hrest]; subst.
      split; [exact Hc|].
      intros x Hx. apply class_matches_IdChar.
      rewrite Forall_forall in Hrest. now apply Hrest.
Qed.

(** C9. The check accepts exactly the non-empty strings made of letters,
    digits, underscore, hyphen, slash and dot.  The builder does not consult
    it: an identifier the check rejects is still appended unchanged to the
    URL. *)
Theorem validatePublicId_spec (publicId : string) :
  (validatePublicId publicId = true
   <-> publicId <> "" /\ Forall IdChar (list_ascii_of_string publicId))
  /\ (validatePublicId publicId = false ->
      forall env t,
        buildCloudinaryUrl env publicId t
        = "https://res.cloudinary.com/" ++ getCloudName env
            ++ "/image/upload/" ++ transformString t ++ publicId).
Proof.
  split.
  - unfold validatePublicId.
    destruct publicId as [|c s].
    + simpl. split; [discriminate | intros [Hne _]; now elim Hne].
    + cbn [str_truthy negb String.length Nat.ltb Nat.leb].
      rewrite andb_true_r. apply test_class_plus_spec.
  - intros _ env t. apply buildCloudinaryUrl_shape.
Qed.

Lemma validatePublicId_spec_witness :
  validatePublicId "summer sale?.jpg" = false
  /\ buildCloudinaryUrl bare_env "summer sale?.jpg" [Width (ofZ 600)]
     = "https://res.cloudinary.com/demo/image/upload/w_600/summer sale?.jpg".
Proof.
  split; [reflexivity|].
  exact (proj2 (validatePublicId_spec "summer sale?.jpg") eq_refl
               bare_env [Width (ofZ 600)]).
Defined.

(* ------------------------------------------------------------------ *)
(** ** Format tokens *)
(* ------------------------------------------------------------------ *)

Lemma formatPart_fetchFormat (t : CloudinaryTransforms) (ff : FetchFormat) :
  fetchFormat t = Some ff -> formatPart t = ["f_" ++ FetchFormat_str ff].
Proof.
  intros H. unfold formatPart, truthy_value.
  now rewrite H, FetchFormat_truthy.
Qed.

Lemma formatPart_format (t : CloudinaryTransforms) :
  fetchFormat t = None ->
  formatPart t
  = match format t with
    | Some f => ["f_" ++ Format_str f]
    | None => []
    end.
Proof.
  intros H. unfold formatPart, push_if, truthy_value. rewrite H.
  destruct (format t) as [f|]; [|reflexivity].
  now rewrite Format_truthy.
Qed.

(** Among the builder's own pushes only the fetchFormat / format
    alternative yields a format token. *)
Lemma format_tokens_of_transformParts (t : CloudinaryTransforms) :
  filter isFormatToken (transformParts t)
  = (filter isFormatToken (formatPart t)
       ++ filter isFormatToken
            (push_if str_truthy (fun v => v) (customTransform t)))%list.
Proof.
  unfold transformParts.
  rewrite !concat_cons, concat_nil, !filter_app.
  repeat match goal with
         | |- context [filter isFormatToken (push_if ?tr ?tok ?fld)] =>
             rewrite (filter_push_if tr tok isFormatToken fld)
               by (intro; reflexivity)
         | |- context [filter isFormatToken (push_if_defined ?tok ?fld)] =>
             rewrite (filter_push_if_defined tok isFormatToken fld)
               by (intro; reflexivity)
         end.
  simpl. now rewrite app_nil_r.
Qed.

(** Writing a format into an object that has a fetchFormat changes nothing
    the builder pushes. *)
Lemma transformParts_format_ignored
      (t : CloudinaryTransforms) (ff : FetchFormat) (f' : Format) :
  fetchFormat t = Some ff ->
  transformParts (t ++ [FormatOf f'])%list = transformParts t.
Proof.
  intros H.
  unfold transformParts. f_equal.
  rewrite (formatPart_fetchFormat t ff H).
  rewrite (formatPart_fetchFormat (t ++ [FormatOf f'])%list ff)
    by (unfold fetchFormat in *; rewrite read_app; exact H).
  unfold width, height, aspectRatio, crop, gravity, quality,
    dpr, brightness, contrast, saturation, gamma, vibrance, hue, opacity,
    blur, sharpen, unsharpMask, sepia, grayscale, blackwhite, negate,
    oilPaint, vignette, pixelate, border, background, angle, progressive,
    immutableCache, stripProfile, customTransform.
  rewrite !read_app. reflexivity.
Qed.

(** C10, as the code has it.  When both fetchFormat and format are set,
    the fetchFormat / format alternative pushes the single token
    [f_<fetchFormat>]; it is the only format token among the builder's own
    pushes, a raw customTransform string being passed through as it is and
    able to add format tokens of the caller's own; and the URL is the same
    whatever the format field holds.  The format field yields the token
    only when fetchFormat is unset. *)
Theorem fetchFormat_precedes_format
        (t : CloudinaryTransforms) (ff : FetchFormat) (f : Format) :
  fetchFormat t = Some ff ->
  format t = Some f ->
  formatPart t = ["f_" ++ FetchFormat_str ff]
  /\ In ("f_" ++ FetchFormat_str ff) (transformParts t)
  /\ filter isFormatToken (transformParts t)
     = (("f_" ++ FetchFormat_str ff)
          :: filter isFormatToken
               (push_if str_truthy (fun v => v) (customTransform t)))
  /\ (forall env publicId f',
         buildCloudinaryUrl env publicId (t ++ [FormatOf f'])%list
         = buildCloudinaryUrl env publicId t)
  /\ (forall t',
         fetchFormat t' = None ->
         formatPart t'
         = match format t' with
           | Some f0 => ["f_" ++ Format_str f0]
           | None => []
           end).
Proof.
  intros Hff Hf.
  pose proof (formatPart_fetchFormat t ff Hff) as Hpart.
  split; [exact Hpart|]. split; [|split; [|split]].
  - unfold transformParts. rewrite !concat_cons, Hpart.
    repeat (apply in_or_app; first [left; solve [now left] | right]).
  - rewrite format_tokens_of_transformParts, Hpart.
    cbn [filter]. unfold isFormatToken at 1.
    now rewrite prefix_append.
  - intros env publicId f'. unfold buildCloudinaryUrl, transformString.
    now rewrite (transformParts_format_ignored t ff f' Hff).
  - intros t'. apply formatPart_format.
Qed.

Lemma fetchFormat_precedes_format_witness :
  transformParts [FormatOf f_png; FetchFormatOf ff_auto; Width (ofZ 600)]
  = ["w_600"; "f_auto"]
  /\ formatPart [FormatOf f_png; FetchFormatOf ff_auto; Width (ofZ 600)]
     = ["f_auto"].
Proof.
  split; [reflexivity|].
  exact (proj1 (fetchFormat_precedes_format
                  [FormatOf f_png; FetchFormatOf ff_auto; Width (ofZ 600)]
                  ff_auto f_png eq_refl eq_refl)).
Defined.

(** C10, as stated, fails when the raw customTransform string is itself a
    format token: with fetchFormat "auto", format "png" and customTransform
    "f_png" the URL carries two format tokens, [f_auto] and [f_png]. *)
Lemma two_format_tokens_with_customTransform :
  fetchFormat [FetchFormatOf ff_auto; FormatOf f_png; CustomTransform "f_png"]
  = Some ff_auto
  /\ format [FetchFormatOf ff_auto; FormatOf f_png; CustomTransform "f_png"]
     = Some f_png
  /\ transformParts
       [FetchFormatOf ff_auto; FormatOf f_png; CustomTransform "f_png"]
     = ["f_auto"; "f_png"]
  /\ buildCloudinaryUrl bare_env "sample"
       [FetchFormatOf ff_auto; FormatOf f_png; CustomTransform "f_png"]
     = "https://res.cloudinary.com/demo/image/upload/f_auto,f_png/sample"
  /\ ~ (forall t ff f,
          fetchFormat t = Some ff ->
          format t = Some f ->
          filter isFormatToken (transformParts t)
          = ["f_" ++ FetchFormat_str ff]).
Proof.
  repeat split; try reflexivity.
  intros Hall.
  specialize (Hall [FetchFormatOf ff_auto; FormatOf f_png;
                    CustomTransform "f_png"]
                   ff_auto f_png eq_refl eq_refl).
  discriminate Hall.
Qed.

(* ------------------------------------------------------------------ *)
(** ** Further properties of the builder *)
(* ------------------------------------------------------------------ *)

Lemma str_truthy_nonempty (s : string) : str_truthy s = true <-> s <> "".
Proof.
  destruct s; simpl; split; intros H; try discriminate; try reflexivity.
  now elim H.
Qed.


Lemma append_inj_l (a x y : string) : a ++ x = a ++ y -> x = y.
Proof.
  induction a as [|ch a IH]; simpl; intros H; [exact H|].
  injection H as H. now apply IH.
Qed.

(** X2. For a fixed configuration and options object, different
    identifiers give different URLs. *)
Theorem buildCloudinaryUrl_injective_in_identifier
        (env : Environment) (t : CloudinaryTransforms) (id1 id2 : string) :
  buildCloudinaryUrl env id1 t = buildCloudinaryUrl env id2 t <-> id1 = id2.
Proof.
  split; [|now intros ->].
  unfold buildCloudinaryUrl. intros H.
  now apply append_inj_l, append_inj_l, append_inj_l in H.
Qed.

Section PushShapes.

Context {A : Type} (is_truthy : A -> bool) (token : A -> string).

Lemma push_if_Forall (P : string -> Prop) (field : option A) :
  (forall v, is_truthy v = true -> P (token v)) ->
  Forall P (push_if is_truthy token field).
Proof.
  intros H. unfold push_if, truthy_value.
  destruct field as [v|]; [|constructor].
  destruct (is_truthy v) eqn:E; constructor; [now apply H | constructor].
Qed.

Lemma push_if_defined_Forall (P : string -> Prop) (field : option A) :
  (forall v, P (token v)) -> Forall P (push_if_defined token field).
Proof.
  intros H. destruct field as [v|]; constructor; [apply H | constructor].
Qed.

Lemma push_if_length (field : option A) :
  (List.length (push_if is_truthy token field) <= 1)%nat.
Proof.
  unfold push_if. destruct (truthy_value is_truthy field); simpl; lia.
Qed.

Lemma push_if_defined_length (field : option A) :
  (List.length (push_if_defined token field) <= 1)%nat.
Proof.
  destruct field; simpl; lia.
Qed.

Lemma push_if_nil (field : option A) :
  push_if is_truthy token field = []
  <-> truthy_value is_truthy field = None.
Proof.
  unfold push_if. destruct (truthy_value is_truthy field); split;
    intros H; try discriminate; reflexivity.
Qed.

End PushShapes.

Lemma formatPart_length (t : CloudinaryTransforms) :
  (List.length (formatPart t) <= 1)%nat.
Proof.
  unfold formatPart.
  destruct (truthy_value _ (fetchFormat t)); [simpl; lia|].
  apply push_if_length.
Qed.

Lemma formatPart_nonempty_tokens (t : CloudinaryTransforms) :
  Forall (fun token => token <> "") (formatPart t).
Proof.
  unfold formatPart.
  destruct (truthy_value _ (fetchFormat t)).
  - constructor; [discriminate | constructor].
  - apply push_if_Forall. discriminate.
Qed.

(** X3. The builder never pushes an empty token, so joining with commas
    puts no leading, trailing or doubled comma of its own into the
    segment. *)
Theorem transformParts_no_empty_token (t : CloudinaryTransforms) :
  Forall (fun token => token <> "") (transformParts t).
Proof.
  unfold transformParts. apply Forall_concat.
  repeat (apply Forall_cons;
          [ first [ apply formatPart_nonempty_tokens
                  | apply push_if_defined_Forall; discriminate
                  | apply push_if_Forall; intros v Hv;
                    first [ discriminate
                          | now apply str_truthy_nonempty ] ]
          | ]).
  constructor.
Qed.

Lemma concat_length_bound {B : Type} (ls : list (list B)) :
  Forall (fun l => (List.length l <= 1)%nat) ls ->
  (List.length (concat ls) <= List.length ls)%nat.
Proof.
  induction 1 as [|l ls Hl _ IH]; simpl; [lia|].
  rewrite length_app. lia.
Qed.

(** X4. An options object yields at most 32 tokens: one per field, with
    fetchFormat and format sharing one. *)
Theorem transformParts_at_most_32 (t : CloudinaryTransforms) :
  (List.length (transformParts t) <= 32)%nat.
Proof.
  unfold transformParts.
  match goal with
  | |- (List.length (concat ?ls) <= _)%nat =>
      change 32%nat with (List.length ls)
  end.
  apply concat_length_bound.
  repeat (apply Forall_cons;
          [ first [ apply formatPart_length
                  | apply push_if_length
                  | apply push_if_defined_length ]
          | ]).
  constructor.
Qed.

(** X5. A truthy width is always the first token: the transform segment
    starts with [w_<width>] whatever else is set. *)
Theorem width_token_first
        (env : Environment) (publicId : string) (t : CloudinaryTransforms)
        (w : number) :
  width t = Some w ->
  truthy w = true ->
  exists rest rest_segment,
    transformParts t = ("w_" ++ toString w) :: rest
    /\ buildCloudinaryUrl env publicId t
       = "https://res.cloudinary.com/" ++ getCloudName env
           ++ "/image/upload/" ++ "w_" ++ toString w ++ rest_segment.
Proof.
  intros Hw Htruthy.
  assert (exists rest, transformParts t = ("w_" ++ toString w) :: rest)
    as [rest Hparts].
  { unfold transformParts. rewrite concat_cons.
    unfold push_if at 1, truthy_value at 1. rewrite Hw, Htruthy.
    eexists. reflexivity. }
  exists rest.
  rewrite buildCloudinaryUrl_shape.
  unfold transformString. rewrite Hparts.
  destruct rest as [|second rest].
  - exists ("/" ++ publicId). split; [reflexivity|].
    unfold join. cbn [String.concat]. now rewrite !append_assoc.
  - exists ("," ++ join "," (second :: rest) ++ "/" ++ publicId).
    split; [reflexivity|].
    unfold join.
    change (String.concat "," (("w_" ++ toString w) :: second :: rest))
      with (("w_" ++ toString w) ++ "," ++ String.concat "," (second :: rest)).
    now rewrite !append_assoc.
Qed.

Lemma width_token_first_witness :
  exists rest rest_segment,
    transformParts [QualityOf q_auto; Width (ofZ 600)]
    = ("w_" ++ toString (ofZ 600)) :: rest
    /\ buildCloudinaryUrl bare_env "sample" [QualityOf q_auto; Width (ofZ 600)]
       = "https://res.cloudinary.com/" ++ getCloudName bare_env
           ++ "/image/upload/" ++ "w_" ++ toString (ofZ 600) ++ rest_segment.
Proof.
  apply (width_token_first bare_env "sample"
           [QualityOf q_auto; Width (ofZ 600)] (ofZ 600)); reflexivity.
Defined.

Lemma join_snoc (sep s : string) (front : list string) :
  exists before, join sep (front ++ [s])%list = before ++ s.
Proof.
  unfold join. induction front as [|x [|y rest] IH].
  - exists "". reflexivity.
  - exists (x ++ sep). simpl. now rewrite append_assoc.
  - destruct IH as [before IH]. exists (x ++ sep ++ before).
    change (((x :: y :: rest) ++ [s])%list)
      with (x :: ((y :: rest) ++ [s]))%list.
    change (String.concat sep (x :: ((y :: rest) ++ [s]))%list)
      with (x ++ sep ++ String.concat sep ((y :: rest) ++ [s])%list).
    rewrite IH. now rewrite !append_assoc.
Qed.

(** X6. A non-empty customTransform string is always the last token: the
    URL ends with the raw string, a slash and the identifier. *)
Theorem customTransform_token_last
        (env : Environment) (publicId : string) (t : CloudinaryTransforms)
        (raw : string) :
  customTransform t = Some raw ->
  raw <> "" ->
  exists front before,
    transformParts t = (front ++ [raw])%list
    /\ buildCloudinaryUrl env publicId t = before ++ raw ++ "/" ++ publicId.
Proof.
  intros Hraw Hne.
  apply str_truthy_nonempty in Hne.
  assert (exists front, transformParts t = (front ++ [raw])%list)
    as [front Hparts].
  { unfold transformParts.
    rewrite !concat_cons, concat_nil, app_nil_r.
    replace (push_if str_truthy (fun v => v) (customTransform t))
      with [raw]
      by (unfold push_if, truthy_value; now rewrite Hraw, Hne).
    rewrite !app_assoc. eexists. reflexivity. }
  exists front.
  destruct (join_snoc "," raw front) as [before Hjoin].
  exists ("https://res.cloudinary.com/" ++ getCloudName env
            ++ "/image/upload/" ++ before).
  split; [exact Hparts|].
  rewrite buildCloudinaryUrl_shape. unfold transformString.
  rewrite Hparts.
  destruct (front ++ [raw])%list as [|x l] eqn:E.
  - now destruct front.
  - rewrite Hjoin. now rewrite !append_assoc.
Qed.

Lemma customTransform_token_last_witness :
  exists front before,
    transformParts [CustomTransform "e_art:zorro"; Width (ofZ 600)]
    = (front ++ ["e_art:zorro"])%list
    /\ buildCloudinaryUrl bare_env "sample"
         [CustomTransform "e_art:zorro"; Width (ofZ 600)]
       = before ++ "e_art:zorro" ++ "/" ++ "sample".
Proof.
  apply (customTransform_token_last bare_env "sample"
           [CustomTransform "e_art:zorro"; Width (ofZ 600)] "e_art:zorro").
  - reflexivity.
  - discriminate.
Defined.

(** X7. A non-empty string given for aspectRatio, unsharpMask, blackwhite,
    vignette, border, background or customTransform is put into the URL as
    it is, behind the field's code: nothing is escaped or checked, so
    commas and slashes of the caller go through. *)
Theorem string_value_emitted_verbatim
        (env : Environment) (publicId : string) (t : CloudinaryTransforms)
        (f : StringField) (s : string) :
  stringValue f t = Some s ->
  s <> "" ->
  In (stringToken f s) (transformParts t)
  /\ Substring (stringToken f s) (buildCloudinaryUrl env publicId t).
Proof.
  intros Hval Hne. apply str_truthy_nonempty in Hne.
  assert (In (stringToken f s) (transformParts t)) as Hin.
  { destruct f; simpl in Hval |- *; try find_push.
    destruct (vignette t) as [[n|s']|] eqn:E; try discriminate Hval.
    injection Hval as ->. find_push. }
  split; [exact Hin|]. now apply pushed_token_in_url.
Qed.

Lemma string_value_emitted_verbatim_witness :
  In "b_rgb:ff,00/00" (transformParts [Background "rgb:ff,00/00"])
  /\ Substring "b_rgb:ff,00/00"
       (buildCloudinaryUrl bare_env "sample" [Background "rgb:ff,00/00"]).
Proof.
  apply (string_value_emitted_verbatim bare_env "sample"
           [Background "rgb:ff,00/00"] sf_background "rgb:ff,00/00").
  - reflexivity.
  - discriminate.
Defined.

Lemma length_append (a x : string) :
  String.length (a ++ x) = (String.length a + String.length x)%nat.
Proof.
  induction a as [|ch a IH]; simpl; [reflexivity | now rewrite IH].
Qed.

Lemma append_eq_self (a x : string) : a ++ x = x -> a = "".
Proof.
  intros H.
  assert (String.length (a ++ x) = String.length x) as Hlen by now rewrite H.
  rewrite length_append in Hlen.
  destruct a; [reflexivity | simpl in Hlen; lia].
Qed.

(** X8. The URL is the plain [root/id] exactly when no token is pushed: an
    options object whose fields are all absent or falsy is
    indistinguishable from [{}], and any pushed token changes the URL. *)
Theorem buildCloudinaryUrl_plain_iff_no_token
        (env : Environment) (publicId : string) (t : CloudinaryTransforms) :
  buildCloudinaryUrl env publicId t = buildCloudinaryUrl env publicId []
  <-> transformParts t = [].
Proof.
  unfold buildCloudinaryUrl, transformString.
  change (transformParts []) with (@nil string).
  split.
  - intros H. apply append_inj_l, append_inj_l in H.
    apply append_eq_self in H.
    destruct (transformParts t) as [|x l]; [reflexivity|].
    exfalso. destruct (join "," (x :: l)); discriminate H.
  - intros ->. reflexivity.
Qed.

(* ------------------------------------------------------------------ *)
(** ** [getOptimizedImageUrl] and [getFallbackImageUrl] *)
(* ------------------------------------------------------------------ *)

Lemma or_else_Quality_truthy (field : option Quality) :
  Quality_truthy (or_else Quality_truthy field q_auto) = true.
Proof.
  unfold or_else, truthy_value. destruct field as [q|]; [|reflexivity].
  now destruct (Quality_truthy q) eqn:E.
Qed.

(** The tokens of an object that holds at most a width, a height, a crop,
    a quality and a fetchFormat. *)
Lemma transformParts_basic (w h : option number) (q : Quality) (c : Crop)
      (ff : list property) :
  Quality_truthy q = true ->
  ff = [] \/ ff = [FetchFormatOf ff_auto] ->
  transformParts
    (define Width w ++ define Height h ++ [QualityOf q; CropMode c] ++ ff)%list
  = concat [ push_if truthy (fun v => "w_" ++ toString v) w;
             push_if truthy (fun v => "h_" ++ toString v) h;
             [ "c_" ++ Crop_str c; "q_" ++ Quality_str q ];
             match ff with [] => [] | _ => ["f_auto"] end ].
Proof.
  intros Hq Hff.
  pose proof (Crop_truthy c) as Hc.
  unfold literal_truthy in Hc.
  destruct Hff as [-> | ->], w as [w|], h as [h|];
    unfold transformParts, formatPart, push_if, truthy_value, literal_truthy;
    cbn; rewrite Hq, Hc;
    repeat match goal with
           | |- context [truthy ?n] => destruct (truthy n)
           end;
    reflexivity.
Qed.

(** X9. Whatever the options, [getOptimizedImageUrl] returns a URL whose
    segment holds, in this order: the width and the height when truthy, a
    crop token (the given crop or "fill"), a quality token (the given
    quality, or "auto" when unset or a falsy number), and [f_auto] unless
    format is exactly [false].  The segment is therefore never empty. *)
Theorem getOptimizedImageUrl_tokens
        (env : Environment) (publicId : string) (options : OptimizedOptions) :
  let tokens :=
    concat
      [ push_if truthy (fun v => "w_" ++ toString v) (opt_width options);
        push_if truthy (fun v => "h_" ++ toString v) (opt_height options);
        [ "c_" ++ Crop_str (match opt_crop options with
                            | Some c => c
                            | None => crop_fill
                            end);
          "q_" ++ Quality_str (match opt_quality options with
                               | Some q => if Quality_truthy q then q else q_auto
                               | None => q_auto
                               end) ];
        match opt_format options with
        | Some false => []
        | _ => ["f_auto"]
        end ] in
  transformParts (optimizedTransforms options) = tokens
  /\ getOptimizedImageUrl env publicId options
     = "https://res.cloudinary.com/" ++ getCloudName env ++ "/image/upload/"
         ++ join "," tokens ++ "/" ++ publicId.
Proof.
  intros tokens.
  assert (transformParts (optimizedTransforms options) = tokens) as Hparts.
  { unfold optimizedTransforms, tokens.
    rewrite <- or_else_Crop, <- or_else_Quality.
    destruct (opt_format options) as [[|]|]; cbn [not_false].
    - rewrite <- !app_assoc.
      apply transformParts_basic; [apply or_else_Quality_truthy | now right].
    - rewrite <- (app_nil_r [QualityOf _; CropMode _]).
      rewrite (transformParts_basic _ _ _ _ []);
        [reflexivity | apply or_else_Quality_truthy | now left].
    - rewrite <- !app_assoc.
      apply transformParts_basic; [apply or_else_Quality_truthy | now right]. }
  split; [exact Hparts|].
  unfold getOptimizedImageUrl. rewrite buildCloudinaryUrl_shape.
  unfold transformString. rewrite Hparts.
  destruct tokens as [|x l] eqn:E; [|now rewrite append_assoc].
  exfalso. unfold tokens in E. cbn [concat] in E.
  apply app_eq_nil in E as [_ E]. apply app_eq_nil in E as [_ E].
  discriminate E.
Qed.

(** X10. [getFallbackImageUrl] always addresses the image "sample" with
    crop "fill", quality "auto:low" and a gray background.  The defaults
    400 and 300 stand in for omitted arguments only: an explicit 0 is not
    replaced and, being falsy, leaves the dimension out of the URL. *)
Theorem getFallbackImageUrl_tokens
        (env : Environment) (width_arg height_arg : option number) :
  getFallbackImageUrl env width_arg height_arg
  = "https://res.cloudinary.com/" ++ getCloudName env ++ "/image/upload/"
      ++ join ","
           (concat
              [ push_if truthy (fun v => "w_" ++ toString v)
                        (Some (default_param width_arg (ofZ 400)));
                push_if truthy (fun v => "h_" ++ toString v)
                        (Some (default_param height_arg (ofZ 300)));
                ["c_fill"; "q_auto:low"; "b_gray"] ])
      ++ "/sample"
  /\ getFallbackImageUrl env None None
     = "https://res.cloudinary.com/" ++ getCloudName env
         ++ "/image/upload/w_400,h_300,c_fill,q_auto:low,b_gray/sample"
  /\ getFallbackImageUrl env (Some (ofZ 0)) (Some (ofZ 0))
     = "https://res.cloudinary.com/" ++ getCloudName env
         ++ "/image/upload/c_fill,q_auto:low,b_gray/sample".
Proof.
  unfold getFallbackImageUrl. rewrite !buildCloudinaryUrl_shape.
  split; [|split; reflexivity].
  set (w := default_param width_arg (ofZ 400)).
  set (h := default_param height_arg (ofZ 300)).
  match goal with
  | |- context [join "," ?tokens] =>
      assert (transformParts
                [ Width w; Height h; CropMode crop_fill;
                  QualityOf q_auto_low; Background "gray" ] = tokens)
        as Hparts
        by (unfold transformParts, formatPart, push_if, truthy_value;
            cbn; destruct (truthy w), (truthy h); reflexivity);
      assert (tokens <> []) as Hne
        by (cbn [concat]; intros E;
            apply app_eq_nil in E as [_ E];
            apply app_eq_nil in E as [_ E]; discriminate E)
  end.
  unfold transformString. rewrite Hparts.
  match goal with
  | |- context [join "," ?tokens] => destruct tokens as [|x l]
  end.
  - now elim Hne.
  - now rewrite append_assoc.
Qed.

(* ------------------------------------------------------------------ *)
(** ** What the srcset generators do with the base options *)
(* ------------------------------------------------------------------ *)

Lemma formatPart_dprTransforms (base : CloudinaryTransforms) (w d : number) :
  formatPart (dprTransforms base w d) = ["f_auto"].
Proof.
  apply (formatPart_fetchFormat _ ff_auto).
  unfold fetchFormat, dprTransforms. now rewrite read_app.
Qed.

(** X11. Every URL of the DPR srcset asks for the format [f_auto]: a format
    or fetchFormat given in the base options never reaches the URL. *)
Theorem dpr_srcset_format_is_auto
        (base : CloudinaryTransforms) (w d : number) :
  formatPart (dprTransforms base w d) = ["f_auto"]
  /\ filter isFormatToken (transformParts (dprTransforms base w d))
     = "f_auto"
         :: filter isFormatToken
              (push_if str_truthy (fun v => v) (customTransform base)).
Proof.
  split; [apply formatPart_dprTransforms|].
  rewrite format_tokens_of_transformParts, formatPart_dprTransforms.
  unfold customTransform at 1, dprTransforms. rewrite read_app.
  reflexivity.
Qed.

Lemma formatPart_responsiveTransforms
      (base : CloudinaryTransforms) (w : number) :
  formatPart (responsiveTransforms base w)
  = match fetchFormat base with
    | Some ff => ["f_" ++ FetchFormat_str ff]
    | None => ["f_webp"]
    end.
Proof.
  destruct (fetchFormat base) as [ff|] eqn:E.
  - apply formatPart_fetchFormat.
    unfold fetchFormat, responsiveTransforms in *. rewrite read_app. exact E.
  - rewrite formatPart_format.
    + destruct (responsiveTransforms_fields base w) as (_ & _ & _ & -> & _).
      reflexivity.
    + unfold fetchFormat, responsiveTransforms in *. rewrite read_app.
      exact E.
Qed.

(** X12. In the responsive set the format written by the generator is
    "webp", but a fetchFormat of the base options takes precedence over it;
    the base's own format never reaches the URL. *)
Theorem responsive_set_format_token
        (base : CloudinaryTransforms) (w : number) :
  let token :=
    match fetchFormat base with
    | Some ff => "f_" ++ FetchFormat_str ff
    | None => "f_webp"
    end in
  formatPart (responsiveTransforms base w) = [token]
  /\ filter isFormatToken (transformParts (responsiveTransforms base w))
     = token
         :: filter isFormatToken
              (push_if str_truthy (fun v => v) (customTransform base)).
Proof.
  intros token.
  assert (formatPart (responsiveTransforms base w) = [token]) as Hpart.
  { rewrite formatPart_responsiveTransforms. unfold token.
    now destruct (fetchFormat base). }
  split; [exact Hpart|].
  rewrite format_tokens_of_transformParts, Hpart.
  unfold customTransform at 1, responsiveTransforms. rewrite read_app.
  cbn [read filter app].
  assert (isFormatToken token = true) as ->; [|reflexivity].
  unfold token, isFormatToken.
  destruct (fetchFormat base); [apply prefix_append | reflexivity].
Qed.

(** Replaces every field read of [b1] by the same read of [b2], given that
    the two agree outside some keys. *)
Ltac reads_agree H b1 :=
  repeat match goal with
         | |- context [read ?s b1] =>
             rewrite (H _ s _ ltac:(selects_field))
               by (simpl; intuition discriminate)
         end.

Lemma responsiveTransforms_parts_except
      (b1 b2 : CloudinaryTransforms) (w : number) :
  same_fields_except ["width"; "format"] b1 b2 ->
  transformParts (responsiveTransforms b1 w)
  = transformParts (responsiveTransforms b2 w).
Proof.
  intros H.
  unfold transformParts. f_equal.
  rewrite !formatPart_responsiveTransforms.
  unfold responsiveTransforms,
    width, height, aspectRatio, crop, gravity, quality, fetchFormat,
    dpr, brightness, contrast, saturation, gamma, vibrance, hue, opacity,
    blur, sharpen, unsharpMask, sepia, grayscale, blackwhite, negate,
    oilPaint, vignette, pixelate, border, background, angle, progressive,
    immutableCache, stripProfile, customTransform.
  rewrite !read_app. cbn [read].
  reads_agree H b1.
  reflexivity.
Qed.

(** X13. The responsive set does not depend on the width or the format of
    the base options: two bases that agree on every other field give the
    same srcset. *)
Theorem responsive_set_ignores_base_width_and_format
        (env : Environment) (publicId : string) (b1 b2 : CloudinaryTransforms) :
  same_fields_except ["width"; "format"] b1 b2 ->
  getCloudinaryResponsiveSet env publicId b1
  = getCloudinaryResponsiveSet env publicId b2.
Proof.
  intros H.
  unfold getCloudinaryResponsiveSet, responsiveSrcsetEntries. do 2 f_equal.
  apply map_ext. intros w.
  unfold buildCloudinaryUrl, transformString.
  now rewrite (responsiveTransforms_parts_except b1 b2 w H).
Qed.

Lemma responsive_set_ignores_base_width_and_format_witness :
  getCloudinaryResponsiveSet bare_env "sample"
    [FormatOf f_png; Width (ofZ 50); Height (ofZ 300)]
  = getCloudinaryResponsiveSet bare_env "sample" [Height (ofZ 300)].
Proof.
  apply responsive_set_ignores_base_width_and_format.
  intros A sel k Hsel Hk. cbn [read].
  assert (sel (Width (ofZ 50)) = None) as ->.
  { destruct (sel (Width (ofZ 50))) eqn:E; [|reflexivity].
    exfalso. apply Hk. rewrite <- (Hsel (Width (ofZ 50))) by congruence.
    simpl. auto. }
  assert (sel (FormatOf f_png) = None) as ->.
  { destruct (sel (FormatOf f_png)) eqn:E; [|reflexivity].
    exfalso. apply Hk. rewrite <- (Hsel (FormatOf f_png)) by congruence.
    simpl. auto. }
  now destruct (sel (Height (ofZ 300))).
Defined.

(** X14. With DPR support off the generator still sets the ratio: there are
    four entries, one per breakpoint in ascending order, each URL carries
    the token [dpr_1], and each descriptor is the breakpoint width. *)
Theorem getCloudinaryDprSrcset_without_dpr
        (env : Environment) (publicId : string) (base : CloudinaryTransforms) :
  let url (w : Z) :=
    buildCloudinaryUrl env publicId (dprTransforms base (ofZ w) (ofZ 1)) in
  dprSrcsetEntries env publicId base false
  = [ url 400%Z ++ " 400w"; url 800%Z ++ " 800w";
      url 1200%Z ++ " 1200w"; url 1600%Z ++ " 1600w" ]
  /\ forall w : number,
       In "dpr_1" (transformParts (dprTransforms base w (ofZ 1)))
       /\ Substring "dpr_1"
            (buildCloudinaryUrl env publicId (dprTransforms base w (ofZ 1))).
Proof.
  intros url. split; [reflexivity|].
  intros w.
  assert (In "dpr_1" (transformParts (dprTransforms base w (ofZ 1)))) as Hin.
  { destruct (dprTransforms_fields base w (ofZ 1)) as (_ & Hdpr & _).
    assert (Dpr_truthy (dpr_num (ofZ 1)) = true) as Htruthy by reflexivity.
    find_push. }
  split; [exact Hin | now apply pushed_token_in_url].
Qed.

Lemma transformParts_width_head (t : CloudinaryTransforms) (w : number) :
  width t = Some w -> truthy w = true ->
  exists rest, transformParts t = ("w_" ++ toString w) :: rest.
Proof.
  intros Hw Htruthy. unfold transformParts. rewrite concat_cons.
  unfold push_if at 1, truthy_value at 1. rewrite Hw, Htruthy.
  eexists. reflexivity.
Qed.

(** X15. With DPR support on, width descriptors repeat: the third entry
    (400 wide at ratio 2) and the fourth (800 wide at ratio 1) are both
    labelled [800w] although their URLs differ, so the list is neither
    duplicate-free nor strictly ascending. *)
Theorem dpr_srcset_descriptor_repeats
        (env : Environment) (publicId : string) (base : CloudinaryTransforms) :
  exists url3 url4,
    nth_error (dprSrcsetEntries env publicId base true) 2
    = Some (url3 ++ " 800w")
    /\ nth_error (dprSrcsetEntries env publicId base true) 3
       = Some (url4 ++ " 800w")
    /\ url3 = buildCloudinaryUrl env publicId
                (dprTransforms base (ofZ 400) (ofZ 2))
    /\ url4 = buildCloudinaryUrl env publicId
                (dprTransforms base (ofZ 800) (ofZ 1))
    /\ url3 <> url4.
Proof.
  exists (buildCloudinaryUrl env publicId
            (dprTransforms base (ofZ 400) (ofZ 2))),
         (buildCloudinaryUrl env publicId
            (dprTransforms base (ofZ 800) (ofZ 1))).
  do 4 (split; [reflexivity|]).
  rewrite !buildCloudinaryUrl_shape. unfold transformString.
  destruct (transformParts_width_head
              (dprTransforms base (ofZ 400) (ofZ 2)) (ofZ 400))
    as [rest3 ->];
    [apply dprTransforms_fields | reflexivity |].
  destruct (transformParts_width_head
              (dprTransforms base (ofZ 800) (ofZ 1)) (ofZ 800))
    as [rest4 ->];
    [apply dprTransforms_fields | reflexivity |].
  intros H. do 3 apply append_inj_l in H.
  unfold join in H.
  assert (toString (ofZ 400) = "400") as E400 by (vm_compute; reflexivity).
  assert (toString (ofZ 800) = "800") as E800 by (vm_compute; reflexivity).
  rewrite E400, E800 in H.
  destruct rest3, rest4; cbn in H; discriminate H.
Qed.

(* ------------------------------------------------------------------ *)
(** ** More on the identifier check *)
(* ------------------------------------------------------------------ *)

Lemma validatePublicId_chars (publicId : string) :
  validatePublicId publicId = true
  <-> publicId <> "" /\ Forall IdChar (list_ascii_of_string publicId).
Proof.
  unfold validatePublicId.
  destruct publicId as [|c s].
  - simpl. split; [discriminate | intros [Hne _]; now elim Hne].
  - cbn [str_truthy negb String.length Nat.ltb Nat.leb].
    rewrite andb_true_r. apply test_class_plus_spec.
Qed.

Lemma list_ascii_of_string_append (a b : string) :
  list_ascii_of_string (a ++ b)
  = (list_ascii_of_string a ++ list_ascii_of_string b)%list.
Proof.
  induction a as [|c a IH]; simpl; [reflexivity | now rewrite IH].
Qed.

(** X16. Accepted identifiers can be put together: the concatenation of two
    accepted identifiers is accepted, and so is their join with a slash
    (a folder path).  The check does not look at path structure: an
    accepted identifier stays accepted with [../] in front of it. *)
Theorem validatePublicId_concatenation (a b : string) :
  validatePublicId a = true ->
  validatePublicId b = true ->
  validatePublicId (a ++ b) = true
  /\ validatePublicId (a ++ "/" ++ b) = true
  /\ validatePublicId ("../" ++ a) = true.
Proof.
  rewrite !validatePublicId_chars, !list_ascii_of_string_append.
  intros [Ha Hca] [Hb Hcb].
  assert (IdChar "/"%char) as Hslash by (unfold IdChar; tauto).
  assert (IdChar "."%char) as Hdot by (unfold IdChar; tauto).
  repeat split.
  - destruct a; [now elim Ha | discriminate].
  - apply Forall_app. split; assumption.
  - destruct a; [now elim Ha | discriminate].
  - apply Forall_app. split; [assumption|].
    apply Forall_app. split; [|assumption].
    constructor; [exact Hslash | constructor].
  - discriminate.
  - simpl. repeat constructor; assumption.
Qed.

Lemma validatePublicId_concatenation_witness :
  validatePublicId ("products" ++ "bottle-3_pack.v2") = true
  /\ validatePublicId ("products" ++ "/" ++ "bottle-3_pack.v2") = true
  /\ validatePublicId ("../" ++ "products") = true.
Proof.
  apply (validatePublicId_concatenation "products" "bottle-3_pack.v2");
    reflexivity.
Defined.

Lemma dprTransforms_parts_except
      (b1 b2 : CloudinaryTransforms) (w d : number) :
  same_fields_except ["width"; "dpr"; "format"; "fetchFormat"] b1 b2 ->
  transformParts (dprTransforms b1 w d) = transformParts (dprTransforms b2 w d).
Proof.
  intros H.
  unfold transformParts. f_equal.
  rewrite !formatPart_dprTransforms.
  unfold dprTransforms,
    width, height, aspectRatio, crop, gravity, quality,
    dpr, brightness, contrast, saturation, gamma, vibrance, hue, opacity,
    blur, sharpen, unsharpMask, sepia, grayscale, blackwhite, negate,
    oilPaint, vignette, pixelate, border, background, angle, progressive,
    immutableCache, stripProfile, customTransform.
  rewrite !read_app. cbn [read].
  reads_agree H b1.
  reflexivity.
Qed.

(** X17. The DPR srcset does not depend on the width, the dpr, the format
    or the fetchFormat of the base options: two bases that agree on every
    other field give the same srcset, with DPR support on or off. *)
Theorem dpr_srcset_ignores_overridden_fields
        (env : Environment) (publicId : string) (b1 b2 : CloudinaryTransforms)
        (supportDpr : bool) :
  same_fields_except ["width"; "dpr"; "format"; "fetchFormat"] b1 b2 ->
  getCloudinaryDprSrcset env publicId b1 supportDpr
  = getCloudinaryDprSrcset env publicId b2 supportDpr.
Proof.
  intros H.
  unfold getCloudinaryDprSrcset, dprSrcsetEntries. do 2 f_equal.
  apply flat_map_ext. intros w. apply map_ext. intros d.
  unfold buildCloudinaryUrl, transformString.
  now rewrite (dprTransforms_parts_except b1 b2 w d H).
Qed.

Lemma dpr_srcset_ignores_overridden_fields_witness :
  getCloudinaryDprSrcset bare_env "sample"
    [DprOf dpr_auto; FetchFormatOf ff_webp; Height (ofZ 300)] true
  = getCloudinaryDprSrcset bare_env "sample" [Height (ofZ 300)] true.
Proof.
  apply dpr_srcset_ignores_overridden_fields.
  intros A sel k Hsel Hk. cbn [read].
  assert (sel (FetchFormatOf ff_webp) = None) as ->.
  { destruct (sel (FetchFormatOf ff_webp)) eqn:E; [|reflexivity].
    exfalso. apply Hk. rewrite <- (Hsel (FetchFormatOf ff_webp)) by congruence.
    simpl. auto. }
  assert (sel (DprOf dpr_auto) = None) as ->.
  { destruct (sel (DprOf dpr_auto)) eqn:E; [|reflexivity].
    exfalso. apply Hk. rewrite <- (Hsel (DprOf dpr_auto)) by congruence.
    simpl. auto. }
  now destruct (sel (Height (ofZ 300))).
Defined.

(** X18. In every entry of the responsive set the URL and the descriptor
    agree on the width: for a breakpoint [w] the tokens start with
    [w_<w>], and they always include a crop and a quality token, so the
    descriptor [<w>w] labels an image requested [w] pixels wide. *)
Theorem responsive_entry_width_matches_descriptor
        (env : Environment) (publicId : string) (base : CloudinaryTransforms)
        (w : number) :
  In w (Object_values RESPONSIVE_BREAKPOINTS) ->
  exists rest,
    transformParts (responsiveTransforms base w)
    = ("w_" ++ toString w) :: rest
    /\ In ("c_" ++ Crop_str (match crop base with
                             | Some c => c
                             | None => crop_fill
                             end)) rest
    /\ In ("q_" ++ Quality_str (match quality base with
                                | Some q => if Quality_truthy q then q else q_auto
                                | None => q_auto
                                end)) rest
    /\ In (buildCloudinaryUrl env publicId (responsiveTransforms base w)
             ++ " " ++ toString w ++ "w")
          (responsiveSrcsetEntries env publicId base).
Proof.
  intros Hw.
  assert (truthy w = true) as Htruthy
      by (simpl in Hw; intuition (subst; reflexivity)).
  destruct (responsiveTransforms_fields base w)
    as (Hwidth & Hcrop & Hquality & _).
  rewrite <- or_else_Crop in *. rewrite <- or_else_Quality in *.
  pose proof (Crop_truthy (or_else (literal_truthy Crop_str) (crop base) crop_fill))
    as Hc.
  pose proof (or_else_Quality_truthy (quality base)) as Hq.
  unfold transformParts. rewrite !concat_cons.
  unfold push_if at 1, truthy_value at 1. rewrite Hwidth, Htruthy.
  eexists. split; [reflexivity|]. split; [|split].
  - repeat (apply in_or_app;
            first [ left;
                    solve [ eapply push_if_In;
                            [exact Hcrop | exact Hc | reflexivity] ]
                  | right ]).
  - repeat (apply in_or_app;
            first [ left;
                    solve [ eapply push_if_In;
                            [exact Hquality | exact Hq | reflexivity] ]
                  | right ]).
  - unfold responsiveSrcsetEntries.
    apply (in_map (fun w0 =>
                     buildCloudinaryUrl env publicId
                       (responsiveTransforms base w0)
                       ++ " " ++ toString w0 ++ "w")).
    exact Hw.
Qed.

Lemma responsive_entry_width_matches_descriptor_witness :
  exists rest,
    transformParts (responsiveTransforms [GravityMode g_face] (ofZ 800))
    = ("w_" ++ toString (ofZ 800)) :: rest
    /\ In ("c_" ++ Crop_str (match crop [GravityMode g_face] with
                             | Some c => c
                             | None => crop_fill
                             end)) rest
    /\ In ("q_" ++ Quality_str (match quality [GravityMode g_face] with
                                | Some q => if Quality_truthy q then q else q_auto
                                | None => q_auto
                                end)) rest
    /\ In (buildCloudinaryUrl bare_env "sample"
             (responsiveTransforms [GravityMode g_face] (ofZ 800))
             ++ " " ++ toString (ofZ 800) ++ "w")
          (responsiveSrcsetEntries bare_env "sample" [GravityMode g_face]).
Proof.
  apply (responsive_entry_width_matches_descriptor
           bare_env "sample" [GravityMode g_face] (ofZ 800)).
  simpl. auto.
Defined.
